(** * texrecon: labeling override, atlas consolidation and the library entry point

    A shallow embedding of [apps/texrecon/texrecon.cpp]: the labeling override
    block shared by [main] and [reconstructTexture], the consolidation routine
    [build_model], and the control flow of [reconstructTexture].

    Conventions.
    - [std::size_t] and [unsigned int] values are numbers of type [N]; [int]
      values are numbers of type [Z].  Every conversion and every unsigned
      wrap-around of the source is written out ([to_int], [to_size_t]).
    - [std::vector] is [list]; [v[i]] is stdpp's lookup, [v[i] = x] is stdpp's
      insert guarded by a bounds test, [v.resize n] is stdpp's [resize].
    - A run that has no defined result in C++ (an access outside a buffer, a
      signed overflow, a [resize] to an impossible size) is [None] in the
      option monad; [Some] carries the state after a defined run.
    - Console output and timers are not modelled. *)

From Stdlib Require Import ZArith NArith String Ascii List Lia.
From stdpp Require Import base tactics option numbers list.

Local Open Scope Z_scope.

(** ** Machine integers *)

Module MachineInt.

Definition INT_MAX : Z := 2 ^ 31 - 1.
Definition INT_MIN : Z := - 2 ^ 31.

Definition in_int (z : Z) : bool := (INT_MIN <=? z) && (z <=? INT_MAX).

(** Conversion of an integer value to [int]: reduction modulo 2^32 into the
    signed range.  Reading the four bytes of an [unsigned int] as an [int]
    (the [memcpy] into a [glm::ivec3]) gives the same value. *)
Definition to_int (z : Z) : Z := (z + 2 ^ 31) mod 2 ^ 32 - 2 ^ 31.

(** Conversion of an [int] to [std::size_t]: reduction modulo 2^64. *)
Definition to_size_t (z : Z) : N := Z.to_N (z mod 2 ^ 64).

(** [std::size_t] multiplication wraps. *)
Definition size_mul (a b : N) : N := ((a * b) mod 2 ^ 64)%N.

(** [int] arithmetic has no defined result on overflow. *)
Definition int_checked (z : Z) : option Z := if in_int z then Some z else None.
Definition int_mul (a b : Z) : option Z := int_checked (a * b).
Definition int_add (a b : Z) : option Z := int_checked (a + b).

End MachineInt.
Import MachineInt.

(** ** The labeling override path *)

(** Modelled from the spec: [tex::Graph] is declared in the tex library, which
    is not part of the sources at hand.  The spec gives it one node per face
    and a mutable integer label per node, 0 when the graph is created, and
    adjacency between faces.  [set_label] is called by the override loop with
    [i < num_nodes] only. *)
Record Graph : Type := mkGraph {
  labels : list N;
  edges : list (nat * nat)
}.

Definition Graph_new (num_faces : nat) : Graph := mkGraph (replicate num_faces 0%N) [].
Definition num_nodes (g : Graph) : nat := length (labels g).
Definition get_label (g : Graph) (i : nat) : option N := labels g !! i.
Definition set_label (i : nat) (label : N) (g : Graph) : Graph :=
  mkGraph (<[i := label]> (labels g)) (edges g).

Inductive LabelingStatus : Type := LabelingDone | LabelingMismatch.

(** The loop "Transfer labeling to graph": [rest] is [labeling] from index [i]
    on, [K] is [texture_views.size()].  The test and the [set_label] of one
    entry happen in the same iteration. *)
Fixpoint transfer_labeling (K : N) (rest : list N) (i : nat) (g : Graph)
  : LabelingStatus * Graph :=
  match rest with
  | [] => (LabelingDone, g)
  | label :: rest' =>
      if (K <? label)%N then (LabelingMismatch, g)
      else transfer_labeling K rest' (S i) (set_label i label g)
  end.

(** The block from "Load labeling from file" to the end of the loop. *)
Definition load_labeling (K : N) (labeling : list N) (g : Graph)
  : LabelingStatus * Graph :=
  if negb (length labeling =? num_nodes g)%nat then (LabelingMismatch, g)
  else transfer_labeling K labeling 0 g.

(** What the block does on a mismatch differs between the two entry points:
    [main] prints to [std::cerr] and calls [std::exit(EXIT_FAILURE)],
    [reconstructTexture] returns the message. *)
Inductive Outcome (A : Type) : Type :=
| Proceeds (a : A)
| Exits (status : Z)
| Returns (msg : string).
Arguments Proceeds {A} a.
Arguments Exits {A} status.
Arguments Returns {A} msg.

Definition EXIT_FAILURE : Z := 1.
Definition EXIT_SUCCESS : Z := 0.

Definition newline : string := String (ascii_of_nat 10) EmptyString.

Definition wrong_labeling_msg : string :=
  ("Wrong labeling file for this mesh/scene combination... aborting!" ++ newline)%string.

Definition main_load_labeling (K : N) (labeling : list N) (g : Graph) : Outcome Graph :=
  match load_labeling K labeling g with
  | (LabelingDone, g') => Proceeds g'
  | (LabelingMismatch, _) => Exits EXIT_FAILURE
  end.

Definition reconstructTexture_load_labeling (K : N) (labeling : list N) (g : Graph)
  : Outcome Graph :=
  match load_labeling K labeling g with
  | (LabelingDone, g') => Proceeds g'
  | (LabelingMismatch, _) => Returns (wrong_labeling_msg ++ newline)%string
  end.

(** ** Buffers and bounded accesses *)

(** [glm::ivec3]: three [int] components, read and written through
    [operator[]] with an index in 0..2. *)
Record ivec3 : Type := mk_ivec3 { c0 : Z; c1 : Z; c2 : Z }.

Definition ivec3_zero : ivec3 := mk_ivec3 0 0 0.

Definition ivec3_get (t : ivec3) (j : nat) : option Z :=
  match j with
  | 0%nat => Some (c0 t)
  | 1%nat => Some (c1 t)
  | 2%nat => Some (c2 t)
  | _ => None
  end.

Definition ivec3_set (j : nat) (x : Z) (t : ivec3) : option ivec3 :=
  match j with
  | 0%nat => Some (mk_ivec3 x (c1 t) (c2 t))
  | 1%nat => Some (mk_ivec3 (c0 t) x (c2 t))
  | 2%nat => Some (mk_ivec3 (c0 t) (c1 t) x)
  | _ => None
  end.

(** [v[i] = x] on a [std::vector]: defined inside the vector only. *)
Definition vector_set {A : Type} (v : list A) (i : nat) (x : A) : option (list A) :=
  if decide (i < length v)%nat then Some (<[i := x]> v) else None.

(** [memcpy(dst.data() + d, src.data() + s, n * sizeof(A))] between two
    vectors with elements of the same layout: [n] elements are read from [src]
    at [s] and written over [dst] at [d]; both ranges must lie inside. *)
Definition memcpy {A : Type} (dst : list A) (d : nat) (src : list A) (s n : nat)
  : option (list A) :=
  if decide (d + n <= length dst ∧ s + n <= length src)%nat
  then Some (take d dst ++ take n (drop s src) ++ drop (d + n) dst)
  else None.

(** [memcpy(dst, src.data() + s, sizeof(glm::ivec3))] from a vector of
    [unsigned int]: three consecutive entries, each read back as an [int]. *)
Definition read_ivec3 (src : list N) (s : nat) : option ivec3 :=
  a ← src !! s;
  b ← src !! (s + 1)%nat;
  c ← src !! (s + 2)%nat;
  Some (mk_ivec3 (to_int (Z.of_N a)) (to_int (Z.of_N b)) (to_int (Z.of_N c))).

(** [count] iterations of [body], the counter starting at [i]. *)
Fixpoint for_range {St : Type} (body : nat → St → option St) (i count : nat) (s : St)
  : option St :=
  match count with
  | O => Some s
  | S count' => s' ← body i s; for_range body (S i) count' s'
  end.

(** [for (auto i = 0; i < n; ++i) body] with [n] a [std::size_t]: the counter
    is an [int], so the last [++i] must not pass [INT_MAX]. *)
Definition for_int {St : Type} (n : nat) (body : nat → St → option St) (s : St)
  : option St :=
  if decide (Z.of_nat n <= INT_MAX) then for_range body 0 n s else None.

(** ** Writing the labeling out *)

(** The loop of [main] and [reconstructTexture] under "Write labeling to
    file": [std::vector<std::size_t> labeling(graph.num_nodes())] filled with
    [labeling[i] = graph.get_label(i)].  The counter is a [std::size_t]. *)
Definition extract_labeling (graph : Graph) : option (list N) :=
  for_range
    (λ i labeling, label ← get_label graph i; vector_set labeling i label)
    0 (num_nodes graph) (replicate (num_nodes graph) 0%N).

(** ** Mesh, atlas and output buffers *)

(** [mve::TriangleMesh]: positions, normals and the flat face index buffer
    (three [unsigned int] per face).  [V3] stands for the twelve bytes of a
    [math::Vec3f] / [glm::vec3], which the code only copies. *)
Record TriangleMesh (V3 : Type) : Type := mkMesh {
  get_vertices : list V3;
  get_vertex_normals : list V3;
  get_faces : list N
}.
Arguments mkMesh {V3} _ _ _.
Arguments get_vertices {V3} _.
Arguments get_vertex_normals {V3} _.
Arguments get_faces {V3} _.

(** [mve::ByteImage] as [build_model] sees it: [width()], [height()] and the
    bytes behind [get_data_pointer()]. *)
Record ByteImage : Type := mkImage {
  width : Z;
  height : Z;
  image_data : list Byte.byte
}.

(** [TextureAtlas]: the packed image, the mesh faces it contains, its local
    texcoords, and three texcoord indices per contained face. *)
Record TextureAtlas (V2 : Type) : Type := mkAtlas {
  get_image : ByteImage;
  atlas_get_faces : list N;
  get_texcoords : list V2;
  get_texcoord_ids : list N
}.
Arguments mkAtlas {V2} _ _ _ _.
Arguments get_image {V2} _.
Arguments atlas_get_faces {V2} _.
Arguments get_texcoords {V2} _.
Arguments get_texcoord_ids {V2} _.

(** The reference parameters of [build_model] and [reconstructTexture]. *)
Record Buffers (V3 V2 : Type) : Type := mkBuffers {
  points : list V3;
  normals : list V3;
  texCoords : list V2;
  triangles : list ivec3;
  textureWidth : Z;
  textureHeight : Z;
  textureData : list Byte.byte
}.
Arguments mkBuffers {V3 V2} _ _ _ _ _ _ _.
Arguments points {V3 V2} _.
Arguments normals {V3 V2} _.
Arguments texCoords {V3 V2} _.
Arguments triangles {V3 V2} _.
Arguments textureWidth {V3 V2} _.
Arguments textureHeight {V3 V2} _.
Arguments textureData {V3 V2} _.

(** ** build_model *)

(** [textureData.resize(textureWidth * textureHeight * 3)] followed by the
    [memcpy] of [textureData.size()] bytes from the image.  A negative
    product converts to a size no vector can have. *)
Definition copy_texture (image : ByteImage) (textureData : list Byte.byte)
  : option (list Byte.byte) :=
  wh ← int_mul (width image) (height image);
  n ← int_mul wh 3;
  if n <? 0 then None
  else
    let textureData' := resize (Z.to_nat n) Byte.x00 textureData in
    memcpy textureData' 0 (image_data image) 0 (length textureData').

(** [texCoords.resize(atlas_texcoords.size())] and the [memcpy] of the whole
    texcoord array. *)
Definition copy_texcoords {V2 : Type} (zero2 : V2) (atlas_texcoords texCoords : list V2)
  : option (list V2) :=
  let texCoords' := resize (length atlas_texcoords) zero2 texCoords in
  memcpy texCoords' 0 atlas_texcoords 0 (length texCoords').

(** The inner loop of the first loop: [triangles[i][j] = atlas_texcoord_ids.data()[i * 3 + j]]. *)
Definition set_triangle_corner (atlas_texcoord_ids : list N) (i j : nat)
  (triangles : list ivec3) : option (list ivec3) :=
  i3 ← int_mul (Z.of_nat i) 3;
  k ← int_add i3 (Z.of_nat j);
  id ← atlas_texcoord_ids !! Z.to_nat k;
  t ← triangles !! i;
  t' ← ivec3_set j (to_int (Z.of_N id)) t;
  vector_set triangles i t'.

(** Body of the first loop; the state is [(vertexIndices, triangles)]. *)
Definition gather_face (mesh_faces atlas_faces atlas_texcoord_ids : list N) (i : nat)
  (s : list ivec3 * list ivec3) : option (list ivec3 * list ivec3) :=
  f ← atlas_faces !! i;
  v ← read_ivec3 mesh_faces (N.to_nat (size_mul f 3));
  vertexIndices ← vector_set s.1 i v;
  triangles ← for_range (set_triangle_corner atlas_texcoord_ids i) 0 3 s.2;
  Some (vertexIndices, triangles).

(** Body of the second loop: the three assignments
    [texCoordVertexIndices[triangles[i][j]] = vertexIndices[i][j]]. *)
Definition assign_corner (triangles vertexIndices : list ivec3) (i j : nat)
  (texCoordVertexIndices : list Z) : option (list Z) :=
  t ← triangles !! i;
  tj ← ivec3_get t j;
  v ← vertexIndices !! i;
  vj ← ivec3_get v j;
  vector_set texCoordVertexIndices (N.to_nat (to_size_t tj)) vj.

Definition assign_face (triangles vertexIndices : list ivec3) (i : nat)
  (texCoordVertexIndices : list Z) : option (list Z) :=
  for_range (assign_corner triangles vertexIndices i) 0 3 texCoordVertexIndices.

(** Body of the third and fourth loops:
    [memcpy(dst.data() + i, src.data() + texCoordVertexIndices[i], sizeof(glm::vec3))]. *)
Definition copy_vertex_datum {V3 : Type} (src : list V3) (texCoordVertexIndices : list Z)
  (i : nat) (dst : list V3) : option (list V3) :=
  k ← texCoordVertexIndices !! i;
  if k <? 0 then None else memcpy dst i src (Z.to_nat k) 1.

(** The first loop, after [triangles.resize(atlas_faces.size())] and the
    construction of [vertexIndices]. *)
Definition gather_faces (mesh_faces atlas_faces atlas_texcoord_ids : list N)
  (triangles : list ivec3) : option (list ivec3 * list ivec3) :=
  for_int (length atlas_faces)
    (gather_face mesh_faces atlas_faces atlas_texcoord_ids)
    (replicate (length atlas_faces) ivec3_zero,
     resize (length atlas_faces) ivec3_zero triangles).

(** The second loop, on [std::vector<int> texCoordVertexIndices(size)]: the
    vector starts filled with zeros. *)
Definition build_texcoord_map (triangles vertexIndices : list ivec3) (size : nat)
  : option (list Z) :=
  for_int (length triangles) (assign_face triangles vertexIndices) (replicate size 0).

(** The third and fourth loops, after [dst.resize(texCoords.size())]. *)
Definition copy_vertex_data {V3 : Type} (zero3 : V3) (src : list V3)
  (texCoordVertexIndices : list Z) (size : nat) (dst : list V3) : option (list V3) :=
  let dst0 := resize size zero3 dst in
  for_int (length dst0) (copy_vertex_datum src texCoordVertexIndices) dst0.

Definition build_model {V3 V2 : Type} (zero3 : V3) (zero2 : V2)
  (mesh : TriangleMesh V3) (texture_atlases : list (TextureAtlas V2))
  (out : Buffers V3 V2) : option (Buffers V3 V2) :=
  let mesh_vertices := get_vertices mesh in
  let mesh_normals := get_vertex_normals mesh in
  let mesh_faces := get_faces mesh in
  match texture_atlases with
  | [] => Some out
  | texture_atlas :: _ =>
      let image := get_image texture_atlas in
      let textureWidth' := width image in
      let textureHeight' := height image in
      textureData' ← copy_texture image (textureData out);
      let atlas_faces := atlas_get_faces texture_atlas in
      let atlas_texcoords := get_texcoords texture_atlas in
      let atlas_texcoord_ids := get_texcoord_ids texture_atlas in
      texCoords' ← copy_texcoords zero2 atlas_texcoords (texCoords out);
      '(vertexIndices, triangles') ←
        gather_faces mesh_faces atlas_faces atlas_texcoord_ids (triangles out);
      texCoordVertexIndices ←
        build_texcoord_map triangles' vertexIndices (length texCoords');
      points' ←
        copy_vertex_data zero3 mesh_vertices texCoordVertexIndices
          (length texCoords') (points out);
      normals' ←
        copy_vertex_data zero3 mesh_normals texCoordVertexIndices
          (length texCoords') (normals out);
      Some (mkBuffers points' normals' texCoords' triangles'
              textureWidth' textureHeight' textureData')
  end.

(** ** reconstructTexture *)

(** The fields of [Arguments] that [reconstructTexture] reads or writes.  The
    struct is declared in [arguments.h], outside the sources at hand, so the
    value of the default-constructed [Arguments conf;] is an input of the
    model. *)
Record Arguments (Settings : Type) : Type := mkArguments {
  out_prefix : string;
  data_cost_file : string;
  labeling_file : string;
  settings : Settings;
  write_timings : bool;
  write_intermediate_results : bool;
  write_view_selection_model : bool
}.
Arguments mkArguments {Settings} _ _ _ _ _ _ _.
Arguments out_prefix {Settings} _.
Arguments data_cost_file {Settings} _.
Arguments labeling_file {Settings} _.
Arguments settings {Settings} _.
Arguments write_timings {Settings} _.
Arguments write_intermediate_results {Settings} _.
Arguments write_view_selection_model {Settings} _.

(** The stages of the tex library that [reconstructTexture] calls.  Their
    code is outside the sources at hand; each is a function of what it is
    passed, returning what it may write through its pointer arguments. *)
Record TexLibrary (V3 V2 : Type) : Type := mkTexLibrary {
  Settings : Type;
  global_seam_leveling : Settings → bool;
  local_seam_leveling : Settings → bool;
  Float : Type;
  MeshInfo : Type;
  TextureView : Type;
  DataCosts : Type;
  TexturePatch : Type;
  VertexProjectionInfos : Type;
  Vec3f_zero : V3;
  MeshInfo_new : TriangleMesh V3 → MeshInfo;
  prepare_mesh : MeshInfo → TriangleMesh V3 → MeshInfo * TriangleMesh V3;
  generate_texture_views :
    Z → Z → list (list Byte.byte) → list (list Float) → list (list Float) →
    list TextureView;
  build_adjacency_graph : TriangleMesh V3 → MeshInfo → Graph → Graph;
  DataCosts_new : nat → nat → DataCosts;
  calculate_data_costs :
    TriangleMesh V3 → list TextureView → Settings → DataCosts →
    list TextureView * DataCosts;
  (** [inl what] is a [util::FileException] carrying [what]. *)
  DataCosts_load_from_file : string → DataCosts → string + DataCosts;
  view_selection : DataCosts → Graph → Settings → Graph;
  vector_from_file : string → list N;
  generate_texture_patches :
    Graph → TriangleMesh V3 → MeshInfo → list TextureView → Settings →
    list TextureView * VertexProjectionInfos * list TexturePatch;
  tex_global_seam_leveling :
    Graph → TriangleMesh V3 → MeshInfo → VertexProjectionInfos →
    list TexturePatch → list TexturePatch;
  patch_get_faces : TexturePatch → list N;
  adjust_colors : TexturePatch → list V3 → TexturePatch;
  tex_local_seam_leveling :
    Graph → TriangleMesh V3 → VertexProjectionInfos →
    list TexturePatch → list TexturePatch;
  generate_texture_atlases : list TexturePatch → Settings → list (TextureAtlas V2)
}.
Arguments Settings {V3 V2} _.
Arguments global_seam_leveling {V3 V2} _ _.
Arguments local_seam_leveling {V3 V2} _ _.
Arguments Float {V3 V2} _.
Arguments MeshInfo {V3 V2} _.
Arguments TextureView {V3 V2} _.
Arguments DataCosts {V3 V2} _.
Arguments TexturePatch {V3 V2} _.
Arguments VertexProjectionInfos {V3 V2} _.
Arguments Vec3f_zero {V3 V2} _.
Arguments MeshInfo_new {V3 V2} _ _.
Arguments prepare_mesh {V3 V2} _ _ _.
Arguments generate_texture_views {V3 V2} _ _ _ _ _ _.
Arguments build_adjacency_graph {V3 V2} _ _ _ _.
Arguments DataCosts_new {V3 V2} _ _ _.
Arguments calculate_data_costs {V3 V2} _ _ _ _ _.
Arguments DataCosts_load_from_file {V3 V2} _ _ _.
Arguments view_selection {V3 V2} _ _ _ _.
Arguments vector_from_file {V3 V2} _ _.
Arguments generate_texture_patches {V3 V2} _ _ _ _ _ _.
Arguments tex_global_seam_leveling {V3 V2} _ _ _ _ _ _.
Arguments patch_get_faces {V3 V2} _ _.
Arguments adjust_colors {V3 V2} _ _ _.
Arguments tex_local_seam_leveling {V3 V2} _ _ _ _ _.
Arguments generate_texture_atlases {V3 V2} _ _ _.

Definition string_empty (s : string) : bool :=
  match s with EmptyString => true | String _ _ => false end.

(** Conversion of an [int] to [unsigned int] (the [memcpy] of the caller's
    triangles into the mesh's face buffer). *)
Definition to_uint (z : Z) : N := Z.to_N (z mod 2 ^ 32).

(** "Prepare mesh": the caller's [points], [normals] and [triangles] are
    copied into a fresh [mve::TriangleMesh]. *)
Definition mesh_of_buffers {V3 V2 : Type} (zero3 : V3) (out : Buffers V3 V2)
  : option (TriangleMesh V3) :=
  vertices ←
    memcpy (resize (length (points out)) zero3 []) 0 (points out) 0 (length (points out));
  vertex_normals ←
    memcpy (resize (length (normals out)) zero3 []) 0 (normals out) 0 (length (normals out));
  let faces :=
    flat_map (λ t, [to_uint (c0 t); to_uint (c1 t); to_uint (c2 t)]) (triangles out) in
  Some (mkMesh vertices vertex_normals faces).

(** The [if (conf.labeling_file.empty()) ... else ...] statement: either the
    data costs and the optimisation, or the labeling override.  [Returns] is
    an early [return] of [reconstructTexture]. *)
Definition select_views {V3 V2 : Type} (L : TexLibrary V3 V2)
  (conf : Arguments (Settings L)) (mesh : TriangleMesh V3)
  (texture_views : list (TextureView L)) (num_faces : nat) (graph : Graph)
  : Outcome (list (TextureView L) * Graph) :=
  if string_empty (labeling_file conf) then
    let data_costs := DataCosts_new L num_faces (length texture_views) in
    let costs : Outcome (list (TextureView L) * DataCosts L) :=
      if string_empty (data_cost_file conf) then
        Proceeds (calculate_data_costs L mesh texture_views (settings conf) data_costs)
      else
        match DataCosts_load_from_file L (data_cost_file conf) data_costs with
        | inl what => Returns (("failed!" ++ newline) ++ what ++ newline)%string
        | inr data_costs' => Proceeds (texture_views, data_costs')
        end in
    match costs with
    | Proceeds (texture_views', data_costs') =>
        Proceeds (texture_views', view_selection L data_costs' graph (settings conf))
    | Exits status => Exits status
    | Returns msg => Returns msg
    end
  else
    match
      reconstructTexture_load_labeling (N.of_nat (length texture_views))
        (vector_from_file L (labeling_file conf)) graph
    with
    | Proceeds graph' => Proceeds (texture_views, graph')
    | Exits status => Exits status
    | Returns msg => Returns msg
    end.

(** Patches, seam leveling and atlas packing.  The loop over the patches runs
    under OpenMP; every iteration touches its own patch only, so it is a map. *)
Definition make_atlases {V3 V2 : Type} (L : TexLibrary V3 V2)
  (conf : Arguments (Settings L)) (mesh : TriangleMesh V3) (mesh_info : MeshInfo L)
  (texture_views : list (TextureView L)) (graph : Graph)
  : list (TextureAtlas V2) :=
  let '(texture_views', vertex_projection_infos, texture_patches) :=
    generate_texture_patches L graph mesh mesh_info texture_views (settings conf) in
  let texture_patches1 :=
    if global_seam_leveling L (settings conf) then
      tex_global_seam_leveling L graph mesh mesh_info vertex_projection_infos texture_patches
    else
      map (λ texture_patch,
             let patch_adjust_values :=
               replicate
                 (N.to_nat (size_mul (N.of_nat (length (patch_get_faces L texture_patch))) 3))
                 (Vec3f_zero L) in
             adjust_colors L texture_patch patch_adjust_values)
          texture_patches in
  let texture_patches2 :=
    if local_seam_leveling L (settings conf) then
      tex_local_seam_leveling L graph mesh vertex_projection_infos texture_patches1
    else texture_patches1 in
  generate_texture_atlases L texture_patches2 (settings conf).

(** The part of [reconstructTexture] before the choice of the view
    selection path: configuration, mesh, views and graph.  [conf0] is the
    default-constructed [Arguments]. *)
Definition reconstruct_conf {Settings : Type} (conf0 : Arguments Settings)
  : Arguments Settings :=
  mkArguments "textured" (data_cost_file conf0) (labeling_file conf0)
    (settings conf0) false false false.

Record Setup {V3 V2 : Type} (L : TexLibrary V3 V2) : Type := mkSetup {
  setup_mesh : TriangleMesh V3;
  setup_mesh_info : MeshInfo L;
  setup_texture_views : list (TextureView L);
  setup_num_faces : nat;
  setup_graph : Graph
}.
Arguments mkSetup {V3 V2 L} _ _ _ _ _.
Arguments setup_mesh {V3 V2 L} _.
Arguments setup_mesh_info {V3 V2 L} _.
Arguments setup_texture_views {V3 V2 L} _.
Arguments setup_num_faces {V3 V2 L} _.
Arguments setup_graph {V3 V2 L} _.

Definition reconstruct_setup {V3 V2 : Type} (L : TexLibrary V3 V2) (zero3 : V3)
  (width height : Z) (imagesData : list (list Byte.byte))
  (camerasIntrinsic camerasExtrinsic : list (list (Float L)))
  (out : Buffers V3 V2) : option (Setup L) :=
  mesh0 ← mesh_of_buffers zero3 out;
  let '(mesh_info, mesh) := prepare_mesh L (MeshInfo_new L mesh0) mesh0 in
  let texture_views :=
    generate_texture_views L width height imagesData camerasIntrinsic camerasExtrinsic in
  let num_faces := (length (get_faces mesh) / 3)%nat in
  let graph := build_adjacency_graph L mesh mesh_info (Graph_new num_faces) in
  Some (mkSetup mesh mesh_info texture_views num_faces graph).

(** [reconstructTexture]: the returned string and the reference parameters
    after the call.  The block under [conf.write_view_selection_model] and the
    timing file only write files and locals; they are not modelled. *)
Definition reconstructTexture {V3 V2 : Type} (L : TexLibrary V3 V2)
  (zero3 : V3) (zero2 : V2) (conf0 : Arguments (Settings L))
  (width height : Z) (imagesData : list (list Byte.byte))
  (camerasIntrinsic camerasExtrinsic : list (list (Float L)))
  (out : Buffers V3 V2) : option (Outcome unit * Buffers V3 V2) :=
  let conf := reconstruct_conf conf0 in
  su ← reconstruct_setup L zero3 width height imagesData
         camerasIntrinsic camerasExtrinsic out;
  match
    select_views L conf (setup_mesh su) (setup_texture_views su)
      (setup_num_faces su) (setup_graph su)
  with
  | Returns msg => Some (Returns msg, out)
  | Exits status => Some (Exits status, out)
  | Proceeds (texture_views', graph') =>
      let texture_atlases :=
        make_atlases L conf (setup_mesh su) (setup_mesh_info su) texture_views' graph' in
      out' ← build_model zero3 zero2 (setup_mesh su) texture_atlases out;
      Some (Returns EmptyString, out')
  end.

(** ** main *)

(** The parsed command line as [main] uses it: the two input paths, and the
    fields that [reconstructTexture] uses as well.  In the source all of them
    are fields of the one struct [Arguments]. *)
Record CommandLine (Settings : Type) : Type := mkCommandLine {
  in_scene : string;
  in_mesh : string;
  parsed : Arguments Settings
}.
Arguments mkCommandLine {Settings} _ _ _.
Arguments in_scene {Settings} _.
Arguments in_mesh {Settings} _.
Arguments parsed {Settings} _.

(** The files [main] writes, in the order of the calls:
    [write_string_to_file], [tex::DataCosts::save_to_file], [vector_to_file],
    [tex::Model::save] and [timer.write_to_file]. *)
Inductive FileWrite (DC M : Type) : Type :=
| WriteString (path content : string)
| SaveDataCosts (path : string) (data_costs : DC)
| WriteVector (path : string) (labeling : list N)
| SaveModel (prefix : string) (model : M)
| WriteTimings (path : string).
Arguments WriteString {DC M} path content.
Arguments SaveDataCosts {DC M} path data_costs.
Arguments WriteVector {DC M} path labeling.
Arguments SaveModel {DC M} prefix model.
Arguments WriteTimings {DC M} path.

(** What [main] calls besides the stages of [TexLibrary]; none of it is part
    of the sources at hand.  [inl what] is a caught exception carrying
    [what]; [tex_build_model] is [tex::build_model] on a fresh [tex::Model]. *)
Record CliEnvironment {V3 V2 : Type} (L : TexLibrary V3 V2) : Type := mkCliEnvironment {
  Model : Type;
  parse_args : list string → string + CommandLine (Settings L);
  Arguments_to_string : CommandLine (Settings L) → string;
  fs_dirname : string → string;
  fs_dir_exists : string → bool;
  load_ply_mesh : string → string + TriangleMesh V3;
  generate_texture_views_of_scene : string → list (TextureView L);
  generate_debug_embeddings : list (TextureView L) → list (TextureView L);
  tex_build_model : TriangleMesh V3 → list (TextureAtlas V2) → Model
}.
Arguments mkCliEnvironment {V3 V2} L _ _ _ _ _ _ _ _ _.
Arguments Model {V3 V2 L} _.
Arguments parse_args {V3 V2 L} _ _.
Arguments Arguments_to_string {V3 V2 L} _ _.
Arguments fs_dirname {V3 V2 L} _ _.
Arguments fs_dir_exists {V3 V2 L} _ _.
Arguments load_ply_mesh {V3 V2 L} _ _.
Arguments generate_texture_views_of_scene {V3 V2 L} _ _.
Arguments generate_debug_embeddings {V3 V2 L} _ _.
Arguments tex_build_model {V3 V2 L} _ _ _.

(** [main] up to the construction of the graph, with its three exits. *)
Definition main_setup {V3 V2 : Type} {L : TexLibrary V3 V2} (E : CliEnvironment L)
  (argv : list string) : Outcome (CommandLine (Settings L) * Setup L) :=
  match parse_args E argv with
  | inl _ => Exits EXIT_FAILURE
  | inr conf =>
      if negb (fs_dir_exists E (fs_dirname E (out_prefix (parsed conf)))) then
        Exits EXIT_FAILURE
      else
        match load_ply_mesh E (in_mesh conf) with
        | inl _ => Exits EXIT_FAILURE
        | inr mesh0 =>
            let '(mesh_info, mesh) := prepare_mesh L (MeshInfo_new L mesh0) mesh0 in
            let texture_views := generate_texture_views_of_scene E (in_scene conf) in
            let num_faces := (length (get_faces mesh) / 3)%nat in
            let graph := build_adjacency_graph L mesh mesh_info (Graph_new num_faces) in
            Proceeds (conf, mkSetup mesh mesh_info texture_views num_faces graph)
        end
  end.

(** The [if (conf.labeling_file.empty()) ... else ...] statement of [main],
    with the files it writes. *)
Definition main_select_views {V3 V2 : Type} {L : TexLibrary V3 V2} (M : Type)
  (conf : Arguments (Settings L)) (su : Setup L)
  : option (Outcome (list (TextureView L) * Graph) * list (FileWrite (DataCosts L) M)) :=
  if string_empty (labeling_file conf) then
    let data_costs :=
      DataCosts_new L (setup_num_faces su) (length (setup_texture_views su)) in
    let costs : Outcome (list (TextureView L) * DataCosts L)
                * list (FileWrite (DataCosts L) M) :=
      if string_empty (data_cost_file conf) then
        let computed :=
          calculate_data_costs L (setup_mesh su) (setup_texture_views su)
            (settings conf) data_costs in
        (Proceeds computed,
         if write_intermediate_results conf
         then [SaveDataCosts (out_prefix conf ++ "_data_costs.spt")%string computed.2]
         else [])
      else
        match DataCosts_load_from_file L (data_cost_file conf) data_costs with
        | inl _ => (Exits EXIT_FAILURE, [])
        | inr data_costs' => (Proceeds (setup_texture_views su, data_costs'), [])
        end in
    match costs with
    | (Proceeds (texture_views', data_costs'), written) =>
        let graph' := view_selection L data_costs' (setup_graph su) (settings conf) in
        if write_intermediate_results conf then
          labeling ← extract_labeling graph';
          Some (Proceeds (texture_views', graph'),
                written ++ [WriteVector (out_prefix conf ++ "_labeling.vec")%string labeling])
        else Some (Proceeds (texture_views', graph'), written)
    | (Exits status, written) => Some (Exits status, written)
    | (Returns msg, written) => Some (Returns msg, written)
    end
  else
    match
      main_load_labeling (N.of_nat (length (setup_texture_views su)))
        (vector_from_file L (labeling_file conf)) (setup_graph su)
    with
    | Proceeds graph' => Some (Proceeds (setup_texture_views su, graph'), [])
    | Exits status => Some (Exits status, [])
    | Returns msg => Some (Returns msg, [])
    end.

(** Patches, seam leveling and atlas packing as in [make_atlases], keeping
    the views as [generate_texture_patches] leaves them: [main] uses them
    again for the view-selection model. *)
Definition main_make_atlases {V3 V2 : Type} (L : TexLibrary V3 V2)
  (conf : Arguments (Settings L)) (mesh : TriangleMesh V3) (mesh_info : MeshInfo L)
  (texture_views : list (TextureView L)) (graph : Graph)
  : list (TextureView L) * list (TextureAtlas V2) :=
  let '(texture_views', vertex_projection_infos, texture_patches) :=
    generate_texture_patches L graph mesh mesh_info texture_views (settings conf) in
  let texture_patches1 :=
    if global_seam_leveling L (settings conf) then
      tex_global_seam_leveling L graph mesh mesh_info vertex_projection_infos texture_patches
    else
      map (λ texture_patch,
             let patch_adjust_values :=
               replicate
                 (N.to_nat (size_mul (N.of_nat (length (patch_get_faces L texture_patch))) 3))
                 (Vec3f_zero L) in
             adjust_colors L texture_patch patch_adjust_values)
          texture_patches in
  let texture_patches2 :=
    if local_seam_leveling L (settings conf) then
      tex_local_seam_leveling L graph mesh vertex_projection_infos texture_patches1
    else texture_patches1 in
  (texture_views', generate_texture_atlases L texture_patches2 (settings conf)).

(** [main] from the atlases to [return EXIT_SUCCESS]: the model, the timings
    and the view-selection model. *)
Definition main_deliver {V3 V2 : Type} {L : TexLibrary V3 V2} (E : CliEnvironment L)
  (conf : Arguments (Settings L)) (su : Setup L)
  (texture_views : list (TextureView L)) (graph : Graph)
  : list (FileWrite (DataCosts L) (Model E)) :=
  let '(texture_views', texture_atlases) :=
    main_make_atlases L conf (setup_mesh su) (setup_mesh_info su) texture_views graph in
  let model := tex_build_model E (setup_mesh su) texture_atlases in
  [SaveModel (out_prefix conf) model]
  ++ (if write_timings conf
      then [WriteTimings (out_prefix conf ++ "_timings.csv")%string] else [])
  ++ (if write_view_selection_model conf then
        let debug_views := generate_debug_embeddings E texture_views' in
        let '(_, _, texture_patches) :=
          generate_texture_patches L graph (setup_mesh su) (setup_mesh_info su)
            debug_views (settings conf) in
        let debug_atlases := generate_texture_atlases L texture_patches (settings conf) in
        [SaveModel (out_prefix conf ++ "_view_selection")%string
           (tex_build_model E (setup_mesh su) debug_atlases)]
      else []).

(** [main]: the exit status and the files written, in order.  The [.conf]
    file is written after the views are generated, before anything else. *)
Definition main {V3 V2 : Type} {L : TexLibrary V3 V2} (E : CliEnvironment L)
  (argv : list string) : option (Z * list (FileWrite (DataCosts L) (Model E))) :=
  match main_setup E argv with
  | Exits status => Some (status, [])
  | Returns _ => None
  | Proceeds (conf, su) =>
      let conf_file :=
        WriteString (out_prefix (parsed conf) ++ ".conf")%string
          (Arguments_to_string E conf) in
      selected ← main_select_views (Model E) (parsed conf) su;
      match selected with
      | (Exits status, written) => Some (status, conf_file :: written)
      | (Returns _, _) => None
      | (Proceeds (texture_views, graph), written) =>
          Some (EXIT_SUCCESS,
                conf_file :: written
                ++ main_deliver E (parsed conf) su texture_views graph)
      end
  end.

(** ** Notions used in the statements *)

(** The validity condition in the words of the specification: as many
    entries as the graph has nodes, and no entry above the number of views. *)
Definition valid_labeling (K : N) (L : list N) (g : Graph) : Prop :=
  length L = num_nodes g ∧ Forall (λ l, (l <= K)%N) L.

(** What the first loop leaves for face [m]: the vertex indices [v] read from
    the mesh at the face's offset, and the texcoord indices [t] of the face. *)
Definition face_data (mesh_faces atlas_faces ids : list N) (m : nat) (v t : ivec3) : Prop :=
  ∃ f, atlas_faces !! m = Some f
       ∧ read_ivec3 mesh_faces (N.to_nat (size_mul f 3)) = Some v
       ∧ read_ivec3 ids (3 * m) = Some t.

(** The corner pairings of one atlas face, as the [int] values the code
    holds: (texcoord index, vertex index) for corners 0, 1, 2. *)
Definition face_pairings (mesh_faces ids : list N) (k : nat) (f : N) : list (Z * Z) :=
  match read_ivec3 ids (3 * k), read_ivec3 mesh_faces (N.to_nat (size_mul f 3)) with
  | Some t, Some v => [(c0 t, c0 v); (c1 t, c1 v); (c2 t, c2 v)]
  | _, _ => []
  end.

(** The pairings of the faces [atlas_faces], the first of which is face [k]
    of the atlas, in the order of the loops. *)
Fixpoint corner_pairings_from (mesh_faces ids : list N) (k : nat) (atlas_faces : list N)
  : list (Z * Z) :=
  match atlas_faces with
  | [] => []
  | f :: rest =>
      face_pairings mesh_faces ids k f ++ corner_pairings_from mesh_faces ids (S k) rest
  end.

Definition corner_pairings {V3 V2 : Type} (mesh : TriangleMesh V3) (atlas : TextureAtlas V2)
  : list (Z * Z) :=
  corner_pairings_from (get_faces mesh) (get_texcoord_ids atlas) 0 (atlas_get_faces atlas).

(** The map built from a list of pairings: a texcoord index is sent to the
    vertex index of the last pairing that mentions it, and to 0 when no
    pairing does. *)
Definition pick (x : Z) (acc : Z) (p : Z * Z) : Z := if decide (p.1 = x) then p.2 else acc.
Definition mapped_vertex (pairings : list (Z * Z)) (x : Z) : Z := foldl (pick x) 0 pairings.

(** One assignment [texCoordVertexIndices[t] = v] with [0 <= t]. *)
Definition store (acc : list Z) (p : Z * Z) : list Z := <[Z.to_nat p.1 := p.2]> acc.

(** The ways in which [reconstructTexture] fails. *)
Inductive Failure {V3 V2 : Type} (L : TexLibrary V3 V2) (conf0 : Arguments (Settings L))
  (su : Setup L) : Prop :=
| CostFileLoadFailure (what : string) :
    string_empty (labeling_file conf0) = true →
    string_empty (data_cost_file conf0) = false →
    DataCosts_load_from_file L (data_cost_file conf0)
      (DataCosts_new L (setup_num_faces su) (length (setup_texture_views su))) = inl what →
    Failure L conf0 su
| LabelingLengthMismatch :
    string_empty (labeling_file conf0) = false →
    length (vector_from_file L (labeling_file conf0)) ≠ num_nodes (setup_graph su) →
    Failure L conf0 su
| LabelOutOfRange (i : nat) (l : N) :
    string_empty (labeling_file conf0) = false →
    vector_from_file L (labeling_file conf0) !! i = Some l →
    (N.of_nat (length (setup_texture_views su)) < l)%N →
    Failure L conf0 su.

(** ** Concrete data *)

(** A library for concrete runs of [reconstructTexture]: its stages leave
    their inputs as they are, packing yields the given atlases, every
    labeling file holds [1; 5] and no cost file can be opened. *)
Definition trivial_library {V3 V2 : Type} (zero3 : V3)
  (atlases : list (TextureAtlas V2)) : TexLibrary V3 V2 :=
  {| Settings := unit;
     global_seam_leveling := λ _, false;
     local_seam_leveling := λ _, false;
     Float := unit;
     MeshInfo := unit;
     TextureView := unit;
     DataCosts := unit;
     TexturePatch := unit;
     VertexProjectionInfos := unit;
     Vec3f_zero := zero3;
     MeshInfo_new := λ _, tt;
     prepare_mesh := λ mesh_info mesh, (mesh_info, mesh);
     generate_texture_views := λ _ _ imagesData _ _, map (λ _, tt) imagesData;
     build_adjacency_graph := λ _ _ graph, graph;
     DataCosts_new := λ _ _, tt;
     calculate_data_costs := λ _ texture_views _ data_costs, (texture_views, data_costs);
     DataCosts_load_from_file := λ _ _, inl "cannot open file"%string;
     view_selection := λ _ graph _, graph;
     vector_from_file := λ _, [1%N; 5%N];
     generate_texture_patches := λ _ _ _ texture_views _, (texture_views, tt, []);
     tex_global_seam_leveling := λ _ _ _ _ texture_patches, texture_patches;
     patch_get_faces := λ _, [];
     adjust_colors := λ texture_patch _, texture_patch;
     tex_local_seam_leveling := λ _ _ _ texture_patches, texture_patches;
     generate_texture_atlases := λ _ _, atlases |}.

(** A quad of two triangles that share the edge 0-2; in the atlas every
    corner has its own texcoord, and texcoord 6 is used by no corner.  The
    element values stand for positions (10..), normals (20..) and texcoords
    (100..). *)
Definition quad_mesh : TriangleMesh Z :=
  mkMesh [10; 11; 12; 13] [20; 21; 22; 23] [0%N; 1%N; 2%N; 0%N; 2%N; 3%N].

Definition seam_atlas : TextureAtlas Z :=
  mkAtlas (mkImage 2 1 [Byte.x01; Byte.x02; Byte.x03; Byte.x04; Byte.x05; Byte.x06])
    [0%N; 1%N] [100; 101; 102; 103; 104; 105; 106] [0%N; 1%N; 2%N; 3%N; 4%N; 5%N].

(** The caller's buffers holding the input mesh. *)
Definition quad_buffers : Buffers Z Z :=
  mkBuffers [10; 11; 12; 13] [20; 21; 22; 23] [] [mk_ivec3 0 1 2; mk_ivec3 0 2 3] 0 0 [].

Definition quad_model : Buffers Z Z :=
  mkBuffers [10; 11; 12; 10; 12; 13; 10] [20; 21; 22; 20; 22; 23; 20]
    [100; 101; 102; 103; 104; 105; 106] [mk_ivec3 0 1 2; mk_ivec3 3 4 5] 2 1
    [Byte.x01; Byte.x02; Byte.x03; Byte.x04; Byte.x05; Byte.x06].

Definition library_conf (data_cost_file labeling_file : string) : Arguments unit :=
  mkArguments EmptyString data_cost_file labeling_file tt false false false.

(** What [main] may write between the [.conf] file and the model: the data
    costs it computed and the labeling the optimiser produced, both only on
    request. *)
Definition intermediate_writes {DC M : Type} (conf_labeling_empty conf_costs_empty
    write_intermediate : bool) (labels_used : list N) (w : FileWrite DC M) : Prop :=
  match w with
  | SaveDataCosts _ _ =>
      conf_labeling_empty = true ∧ conf_costs_empty = true ∧ write_intermediate = true
  | WriteVector _ labeling =>
      conf_labeling_empty = true ∧ write_intermediate = true ∧ labeling = labels_used
  | _ => False
  end.

(** What [main] writes from the model on. *)
Definition delivery_write {DC M : Type} (w : FileWrite DC M) : Prop :=
  match w with
  | SaveModel _ _ | WriteTimings _ => True
  | _ => False
  end.

(** ** The consolidation in closed form *)

(** The conditions under which [build_model] has a defined result on a mesh
    and the atlas it selects: every product and counter fits an [int], and
    every access falls inside its buffer. *)
Record consolidation_defined {V3 V2 : Type}
    (mesh : TriangleMesh V3) (atlas : TextureAtlas V2) : Prop := {
  image_area_fits :
    INT_MIN <= width (get_image atlas) * height (get_image atlas) <= INT_MAX;
  image_bytes_fit :
    0 <= width (get_image atlas) * height (get_image atlas) * 3 <= INT_MAX;
  image_bytes_present :
    width (get_image atlas) * height (get_image atlas) * 3
    <= Z.of_nat (length (image_data (get_image atlas)));
  corner_count_fits : 3 * Z.of_nat (length (atlas_get_faces atlas)) <= INT_MAX + 1;
  corner_ids_present :
    (3 * length (atlas_get_faces atlas) <= length (get_texcoord_ids atlas))%nat;
  face_offsets_inside :
    ∀ m f, atlas_get_faces atlas !! m = Some f →
      (N.to_nat (size_mul f 3) + 2 < length (get_faces mesh))%nat;
  texcoord_count_fits : Z.of_nat (length (get_texcoords atlas)) <= INT_MAX;
  texcoord_ids_inside :
    Forall (λ p, 0 <= p.1 < Z.of_nat (length (get_texcoords atlas)))
      (corner_pairings mesh atlas);
  mapped_vertices_inside :
    ∀ x, (x < length (get_texcoords atlas))%nat →
      0 <= mapped_vertex (corner_pairings mesh atlas) (Z.of_nat x)
        < Z.of_nat (length (get_vertices mesh))
      ∧ mapped_vertex (corner_pairings mesh atlas) (Z.of_nat x)
        < Z.of_nat (length (get_vertex_normals mesh))
}.

(** What the first loop of [build_model] needs: the corner counter fits an
    [int], the atlas has three texcoord indices per face, and every face lies
    inside the mesh's face buffer. *)
Definition first_loop_defined (mf af ids : list N) : Prop :=
  3 * Z.of_nat (length af) <= INT_MAX + 1
  ∧ (3 * length af <= length ids)%nat
  ∧ ∀ m f, af !! m = Some f → (N.to_nat (size_mul f 3) + 2 < length mf)%nat.

(** The element of [src] that output vertex [x] receives. *)
Definition mapped_datum {V3 : Type} (zero3 : V3) (pairings : list (Z * Z))
  (src : list V3) (x : nat) : V3 :=
  default zero3 (src !! Z.to_nat (mapped_vertex pairings (Z.of_nat x))).

(** The three texcoord indices of atlas face [m], as [int]s. *)
Definition face_triangle (ids : list N) (m : nat) : ivec3 :=
  default ivec3_zero (read_ivec3 ids (3 * m)).

(** The consolidated model written down directly from the mesh and the
    atlas. *)
Definition consolidated_model {V3 V2 : Type} (zero3 : V3)
  (mesh : TriangleMesh V3) (atlas : TextureAtlas V2) : Buffers V3 V2 :=
  let pairings := corner_pairings mesh atlas in
  let n := length (get_texcoords atlas) in
  let image := get_image atlas in
  mkBuffers
    (mapped_datum zero3 pairings (get_vertices mesh) <$> seq 0 n)
    (mapped_datum zero3 pairings (get_vertex_normals mesh) <$> seq 0 n)
    (get_texcoords atlas)
    (face_triangle (get_texcoord_ids atlas) <$> seq 0 (length (atlas_get_faces atlas)))
    (width image) (height image)
    (take (Z.to_nat (width image * height image * 3)) (image_data image)).

(** The set-up that [main] and [reconstructTexture] reach on the quad with
    the given views. *)
Definition quad_setup (texture_views : list unit)
  : Setup (trivial_library 0 [seam_atlas]) :=
  mkSetup (L := trivial_library 0 [seam_atlas]) quad_mesh tt texture_views 2 (Graph_new 2).

Definition quad_command_line (labeling_file : string) (write_intermediate : bool)
  : CommandLine unit :=
  mkCommandLine "scene" "mesh.ply"
    (mkArguments "out/textured" EmptyString labeling_file tt false write_intermediate true).

(** A command-line environment for concrete runs of [main] over
    [trivial_library]: an empty command line does not parse, only the
    directory [out] exists, the mesh file holds the quad, the scene has two
    views, and a model is stood for by the number of its atlases. *)
Definition quad_cli (labeling_file : string) (write_intermediate : bool)
  : CliEnvironment (trivial_library 0 [seam_atlas]) :=
  mkCliEnvironment (trivial_library 0 [seam_atlas]) nat
    (λ argv,
       match argv with
       | [] => inl "no arguments"%string
       | _ =>
           inr (quad_command_line labeling_file write_intermediate)
       end)
    (λ _, "configuration"%string)
    (λ _, "out"%string)
    (λ d, String.eqb d "out")
    (λ _, inr quad_mesh)
    (λ _, [tt; tt])
    (λ texture_views, texture_views)
    (λ _ texture_atlases, length texture_atlases).

(** * Properties *)

(** ** The labeling override path *)

Section Labeling.

Variable K : N.

Lemma transfer_labeling_done_iff (rest : list N) :
  ∀ i g, (transfer_labeling K rest i g).1 = LabelingDone ↔ Forall (λ l, (l <= K)%N) rest.
Proof.
  induction rest as [|label rest IH]; intros i g; simpl.
  - split; [constructor | reflexivity].
  - destruct (N.ltb_spec K label) as [Hlt|Hle]; simpl.
    + split; [discriminate|]. intros HF. inversion HF; subst. lia.
    + rewrite IH. split; [by constructor | by inversion 1].
Qed.

Lemma transfer_labeling_edges (rest : list N) :
  ∀ i g, edges (transfer_labeling K rest i g).2 = edges g.
Proof.
  induction rest as [|label rest IH]; intros i g; simpl; [done|].
  destruct (K <? label)%N; [done|]. by rewrite IH.
Qed.

(** On success every node holds the entry of its position. *)
Lemma transfer_labeling_done_labels (rest : list N) :
  ∀ i g, (i + length rest <= num_nodes g)%nat →
    Forall (λ l, (l <= K)%N) rest →
    labels (transfer_labeling K rest i g).2
    = take i (labels g) ++ rest ++ drop (i + length rest) (labels g).
Proof.
  unfold num_nodes.
  induction rest as [|label rest IH]; intros i g Hlen HF; simpl in *.
  - by rewrite Nat.add_0_r, take_drop.
  - inversion HF as [|? ? Hl HF']; subst.
    destruct (N.ltb_spec K label) as [Hlt|_]; [lia|].
    rewrite IH; [|simpl; rewrite length_insert; lia|done].
    simpl.
    rewrite drop_insert_lt by lia.
    rewrite (take_S_r _ _ label) by (apply list_lookup_insert_eq; lia).
    rewrite take_insert_ge by lia.
    rewrite <- app_assoc. simpl. by rewrite Nat.add_succ_r.
Qed.

(** The state in which the loop stops at the first entry above [K]: the nodes
    before that position already carry their new labels. *)
Lemma transfer_labeling_first_offender (p : nat) :
  ∀ rest l i g,
    rest !! p = Some l → (K < l)%N →
    (∀ j x, (j < p)%nat → rest !! j = Some x → (x <= K)%N) →
    (i + length rest <= num_nodes g)%nat →
    transfer_labeling K rest i g
    = (LabelingMismatch,
       mkGraph (take i (labels g) ++ take p rest ++ drop (i + p) (labels g)) (edges g)).
Proof.
  unfold num_nodes.
  induction p as [|p IH]; intros rest l i g Hp Hl Hbefore Hlen.
  - destruct rest as [|x rest]; [done|]. simpl in Hp. injection Hp as ->.
    simpl. destruct (N.ltb_spec K l) as [_|Hle]; [|lia].
    destruct g as [lbl e]; simpl. by rewrite Nat.add_0_r, take_drop.
  - destruct rest as [|x rest]; [done|]. simpl in Hp, Hlen.
    assert (Hx : (x <= K)%N) by (apply (Hbefore 0%nat); [lia|done]).
    simpl. destruct (N.ltb_spec K x) as [Hlt|_]; [lia|].
    rewrite (IH rest l (S i) (set_label i x g) Hp Hl).
    + simpl. f_equal. f_equal.
      rewrite drop_insert_lt by lia.
      rewrite (take_S_r _ _ x) by (apply list_lookup_insert_eq; lia).
      rewrite take_insert_ge by lia.
      rewrite <- app_assoc. simpl. by rewrite Nat.add_succ_r.
    + intros j y Hj Hy. apply (Hbefore (S j)); [lia|done].
    + simpl. rewrite length_insert. lia.
Qed.

Lemma load_labeling_done_iff (L : list N) (g : Graph) :
  (load_labeling K L g).1 = LabelingDone ↔ valid_labeling K L g.
Proof.
  unfold load_labeling, valid_labeling.
  destruct (Nat.eqb_spec (length L) (num_nodes g)) as [Heq|Hne]; simpl.
  - rewrite transfer_labeling_done_iff. tauto.
  - split; [discriminate | tauto].
Qed.

(** On success the labels are the loaded vector, in order. *)
Lemma load_labeling_done (L : list N) (g : Graph) :
  valid_labeling K L g → load_labeling K L g = (LabelingDone, mkGraph L (edges g)).
Proof.
  intros [Hlen HF]. unfold load_labeling.
  destruct (Nat.eqb_spec (length L) (num_nodes g)) as [_|]; [simpl|done].
  pose proof (proj2 (transfer_labeling_done_iff L 0 g) HF) as Hst.
  pose proof (transfer_labeling_edges L 0 g) as He.
  pose proof (transfer_labeling_done_labels L 0 g ltac:(simpl; lia) HF) as Hl.
  destruct (transfer_labeling K L 0 g) as [st [lbl e]]. simpl in *. subst st e.
  rewrite Hl, drop_ge by (unfold num_nodes in Hlen; lia).
  by rewrite app_nil_r.
Qed.

(** C1.  The loaded labeling is accepted, and the run goes on, exactly when it
    has as many entries as the graph has nodes and no entry exceeds the number
    of views [K]; otherwise [main] exits with [EXIT_FAILURE] and
    [reconstructTexture] returns the labeling-mismatch message.  A labeling
    made of entries equal to [K] is accepted; any entry of [K + 1] or more
    makes the labeling rejected. *)
Theorem labeling_accepted_iff_valid (L : list N) (g : Graph) :
  ((load_labeling K L g).1 = LabelingDone ↔ valid_labeling K L g)
  ∧ ((∃ g', main_load_labeling K L g = Proceeds g') ↔ valid_labeling K L g)
  ∧ (main_load_labeling K L g = Exits EXIT_FAILURE ↔ ¬ valid_labeling K L g)
  ∧ ((∃ g', reconstructTexture_load_labeling K L g = Proceeds g') ↔ valid_labeling K L g)
  ∧ (reconstructTexture_load_labeling K L g = Returns (wrong_labeling_msg ++ newline)%string
     ↔ ¬ valid_labeling K L g)
  ∧ (load_labeling K (replicate (num_nodes g) K) g).1 = LabelingDone
  ∧ (∀ i l, L !! i = Some l → (K + 1 <= l)%N →
       (load_labeling K L g).1 = LabelingMismatch).
Proof.
  pose proof (load_labeling_done_iff L g) as Hiff.
  unfold main_load_labeling, reconstructTexture_load_labeling.
  destruct (load_labeling K L g) as [[|] g'] eqn:E; simpl in Hiff.
  - assert (Hv : valid_labeling K L g) by (by apply Hiff).
    split_and!.
    + done.
    + split; [done | by eauto].
    + split; [discriminate | done].
    + split; [done | by eauto].
    + split; [discriminate | done].
    + apply load_labeling_done_iff. split; [by rewrite length_replicate|].
      apply Forall_replicate. lia.
    + intros i l Hi Hl. exfalso. destruct Hv as [_ HF].
      rewrite Forall_lookup in HF. specialize (HF i l Hi). simpl in HF. lia.
  - assert (Hnv : ¬ valid_labeling K L g) by (intros Hv; apply Hiff in Hv; discriminate).
    split_and!.
    + done.
    + split; [intros [? ?]; discriminate | done].
    + done.
    + split; [intros [? ?]; discriminate | done].
    + done.
    + apply load_labeling_done_iff. split; [by rewrite length_replicate|].
      apply Forall_replicate. lia.
    + done.
Qed.

(** C2, as the code has it.  A labeling of the wrong length leaves the graph
    as it was.  A labeling of the right length whose first entry above [K] is
    at position [p] is rejected after the nodes before [p] have been given
    their labels; the nodes from [p] on, and the edges, are unchanged. *)
Theorem labeling_failure_graph_state (L : list N) (g : Graph) :
  (length L ≠ num_nodes g →
     load_labeling K L g = (LabelingMismatch, g))
  ∧ (∀ p l,
       length L = num_nodes g →
       L !! p = Some l → (K < l)%N →
       (∀ j x, (j < p)%nat → L !! j = Some x → (x <= K)%N) →
       load_labeling K L g
       = (LabelingMismatch, mkGraph (take p L ++ drop p (labels g)) (edges g))).
Proof.
  unfold load_labeling. split.
  - intros Hne. by destruct (Nat.eqb_spec (length L) (num_nodes g)).
  - intros p l Heq Hp Hl Hbefore.
    destruct (Nat.eqb_spec (length L) (num_nodes g)) as [_|]; [simpl|done].
    rewrite (transfer_labeling_first_offender p L l 0 g Hp Hl Hbefore) by (simpl; lia).
    by rewrite take_0.
Qed.

End Labeling.

(** C2, witness: two nodes, two views, labeling [1; 5]. *)
Lemma labeling_failure_graph_state_witness :
  load_labeling 2 [1%N; 5%N] (Graph_new 2)
  = (LabelingMismatch, mkGraph [1%N; 0%N] []).
Proof.
  apply (proj2 (labeling_failure_graph_state 2 [1%N; 5%N] (Graph_new 2)) 1%nat 5%N);
    [reflexivity | reflexivity | reflexivity |].
  intros [|j] x Hj Hx; [|lia].
  injection Hx as <-. lia.
Defined.

(** C2, as stated, fails: with two nodes and two views, the labeling [1; 5]
    is rejected at its second entry, after node 0 has been relabelled. *)
Lemma labeling_failure_mutates_graph :
  (load_labeling 2 [1%N; 5%N] (Graph_new 2)).1 = LabelingMismatch
  ∧ labels (load_labeling 2 [1%N; 5%N] (Graph_new 2)).2 = [1%N; 0%N]
  ∧ labels (load_labeling 2 [1%N; 5%N] (Graph_new 2)).2 ≠ labels (Graph_new 2).
Proof. repeat split. discriminate. Qed.

(** ** Machine integers, loops and copies *)

Lemma to_int_range (z : Z) : INT_MIN <= to_int z <= INT_MAX.
Proof.
  unfold to_int, INT_MIN, INT_MAX.
  pose proof (Z.mod_pos_bound (z + 2 ^ 31) (2 ^ 32) eq_refl). lia.
Qed.

Lemma to_int_small (z : Z) : INT_MIN <= z <= INT_MAX → to_int z = z.
Proof. unfold to_int, INT_MIN, INT_MAX. intros H. rewrite Z.mod_small; lia. Qed.

Lemma to_size_t_nonneg (z : Z) : 0 <= z <= INT_MAX → N.to_nat (to_size_t z) = Z.to_nat z.
Proof. unfold to_size_t, INT_MAX. intros H. rewrite Z.mod_small by lia. lia. Qed.

Lemma to_size_t_negative (z : Z) :
  INT_MIN <= z < 0 → 2 ^ 64 - 2 ^ 31 <= Z.of_nat (N.to_nat (to_size_t z)).
Proof.
  unfold to_size_t, INT_MIN. intros H.
  replace (z mod 2 ^ 64) with (z + 2 ^ 64); [lia|].
  rewrite <- (Z.mod_small (z + 2 ^ 64) (2 ^ 64)) at 1 by lia.
  rewrite <- Z.add_mod_idemp_r by lia.
  rewrite Z.mod_same by lia. f_equal. lia.
Qed.

Lemma int_checked_Some (z r : Z) :
  int_checked z = Some r → r = z ∧ INT_MIN <= z <= INT_MAX.
Proof.
  unfold int_checked, in_int. intros H.
  destruct (INT_MIN <=? z) eqn:E1, (z <=? INT_MAX) eqn:E2; simpl in H; try discriminate.
  injection H as <-. lia.
Qed.

Lemma int_checked_in_range (z : Z) : INT_MIN <= z <= INT_MAX → int_checked z = Some z.
Proof.
  unfold int_checked, in_int. intros H.
  destruct (Z.leb_spec INT_MIN z), (Z.leb_spec z INT_MAX); simpl; (done || lia).
Qed.

Section Loops.

Context {St : Type}.
Implicit Types (body : nat → St → option St) (P : nat → St → Prop).

(** The invariant rule of the counted loop. *)
Lemma for_range_invariant body P (count : nat) :
  ∀ i s s',
    P i s →
    (∀ k t t', (i <= k < i + count)%nat → P k t → body k t = Some t' → P (S k) t') →
    for_range body i count s = Some s' →
    P (i + count)%nat s'.
Proof.
  induction count as [|count IH]; intros i s s' Hs Hstep Hrun; simpl in Hrun.
  - injection Hrun as <-. by rewrite Nat.add_0_r.
  - destruct (body i s) as [s1|] eqn:Hb; simpl in Hrun; [|done].
    rewrite Nat.add_succ_r. change (S (i + count)) with (S i + count)%nat.
    apply (IH (S i) s1 s'); [|intros k t t' Hk; apply Hstep; lia|done].
    apply (Hstep i s s1); [lia|done|done].
Qed.

(** A loop whose body is defined wherever the invariant holds runs to its end. *)
Lemma for_range_defined body P (count : nat) :
  ∀ i s,
    P i s →
    (∀ k t, (i <= k < i + count)%nat → P k t → ∃ t', body k t = Some t' ∧ P (S k) t') →
    ∃ s', for_range body i count s = Some s' ∧ P (i + count)%nat s'.
Proof.
  induction count as [|count IH]; intros i s Hs Hstep; simpl.
  - exists s. by rewrite Nat.add_0_r.
  - destruct (Hstep i s) as (s1 & Hb & Hs1); [lia|done|]. rewrite Hb. simpl.
    destruct (IH (S i) s1 Hs1) as (s' & Hrun & Hs').
    { intros k t Hk. apply Hstep. lia. }
    exists s'. split; [done|]. by rewrite Nat.add_succ_r.
Qed.

Lemma for_int_Some body (n : nat) (s s' : St) :
  for_int n body s = Some s' ↔ Z.of_nat n <= INT_MAX ∧ for_range body 0 n s = Some s'.
Proof.
  unfold for_int. case_decide as Hn; [tauto|].
  split; [done | by intros [? _]].
Qed.

End Loops.

Section Copies.

Context {A : Type}.
Implicit Types (dst src r : list A).

Lemma memcpy_whole dst src r :
  memcpy dst 0 src 0 (length dst) = Some r →
  (length dst <= length src)%nat ∧ r = take (length dst) src.
Proof.
  unfold memcpy. case_decide as Hb; [|done]. intros [= <-].
  split; [lia|]. simpl. by rewrite drop_all, app_nil_r.
Qed.

Lemma memcpy_whole_defined dst src :
  (length dst <= length src)%nat →
  memcpy dst 0 src 0 (length dst) = Some (take (length dst) src).
Proof.
  intros H. unfold memcpy. case_decide as Hb; [|lia].
  simpl. by rewrite drop_all, app_nil_r.
Qed.

Lemma memcpy_one dst (d : nat) src (s : nat) r :
  memcpy dst d src s 1 = Some r ↔
  (d < length dst)%nat ∧ ∃ x, src !! s = Some x ∧ r = <[d := x]> dst.
Proof.
  unfold memcpy. case_decide as Hb.
  - destruct Hb as [Hd Hs].
    destruct (lookup_lt_is_Some_2 src s) as [x Hx]; [lia|].
    assert (Hr : take d dst ++ take 1 (drop s src) ++ drop (d + 1) dst = <[d := x]> dst).
    { rewrite insert_take_drop by lia.
      rewrite (drop_S src x s Hx). simpl.
      by rewrite Nat.add_1_r. }
    rewrite Hr. split.
    + intros [= <-]. split; [lia|]. by exists x.
    + intros (_ & y & Hy & ->). congruence.
  - split; [done|]. intros (Hd & x & Hx & _).
    apply lookup_lt_Some in Hx. lia.
Qed.

Lemma vector_set_Some (v : list A) (i : nat) (x : A) r :
  vector_set v i x = Some r ↔ (i < length v)%nat ∧ r = <[i := x]> v.
Proof.
  unfold vector_set. case_decide as Hi.
  - split; [by intros [= <-] | by intros [_ ->]].
  - split; [done | by intros [? _]].
Qed.

End Copies.

(** ** The steps of build_model *)

Lemma copy_texture_Some (image : ByteImage) (textureData0 r : list Byte.byte) :
  copy_texture image textureData0 = Some r →
  0 <= width image * height image * 3 <= INT_MAX
  ∧ Z.of_nat (length r) = width image * height image * 3
  ∧ r = take (Z.to_nat (width image * height image * 3)) (image_data image).
Proof.
  unfold copy_texture, int_mul. intros H.
  destruct (int_checked (width image * height image)) as [wh|] eqn:E1; simpl in H; [|done].
  apply int_checked_Some in E1 as [-> _].
  destruct (int_checked (width image * height image * 3)) as [n|] eqn:E2; simpl in H; [|done].
  apply int_checked_Some in E2 as [-> Hn].
  destruct (Z.ltb_spec (width image * height image * 3) 0) as [|Hpos]; [done|].
  apply memcpy_whole in H as [Hlen ->].
  rewrite length_resize in *.
  split; [lia|]. split; [|done].
  rewrite length_take. lia.
Qed.

Lemma copy_texcoords_eq {V2 : Type} (zero2 : V2) (atlas_texcoords texCoords0 : list V2) :
  copy_texcoords zero2 atlas_texcoords texCoords0 = Some atlas_texcoords.
Proof.
  unfold copy_texcoords.
  rewrite memcpy_whole_defined by (by rewrite length_resize).
  by rewrite length_resize, firstn_all.
Qed.

Lemma set_triangle_corner_Some (ids : list N) (i j : nat) (tris r : list ivec3) :
  set_triangle_corner ids i j tris = Some r →
  ∃ id t t',
    ids !! (3 * i + j)%nat = Some id
    ∧ tris !! i = Some t
    ∧ ivec3_set j (to_int (Z.of_N id)) t = Some t'
    ∧ r = <[i := t']> tris.
Proof.
  unfold set_triangle_corner, int_mul, int_add. intros H.
  destruct (int_checked (Z.of_nat i * 3)) as [i3|] eqn:E1; simpl in H; [|done].
  apply int_checked_Some in E1 as [-> _].
  destruct (int_checked (Z.of_nat i * 3 + Z.of_nat j)) as [k|] eqn:E2; simpl in H; [|done].
  apply int_checked_Some in E2 as [-> _].
  replace (Z.to_nat (Z.of_nat i * 3 + Z.of_nat j)) with (3 * i + j)%nat in H by lia.
  destruct (ids !! (3 * i + j)%nat) as [id|] eqn:E3; simpl in H; [|done].
  destruct (tris !! i) as [t|] eqn:E4; simpl in H; [|done].
  destruct (ivec3_set j (to_int (Z.of_N id)) t) as [t'|] eqn:E5; simpl in H; [|done].
  apply vector_set_Some in H as [_ ->].
  by exists id, t, t'.
Qed.

(** The three assignments of the inner loop write the face's three texcoord
    indices, converted to [int], into [triangles[i]]. *)
Lemma set_triangle_corners_Some (ids : list N) (i : nat) (tris r : list ivec3) :
  for_range (set_triangle_corner ids i) 0 3 tris = Some r →
  ∃ t, read_ivec3 ids (3 * i) = Some t ∧ (i < length tris)%nat ∧ r = <[i := t]> tris.
Proof.
  intros H. simpl in H.
  destruct (set_triangle_corner ids i 0 tris) as [r0|] eqn:E0; simpl in H; [|done].
  destruct (set_triangle_corner ids i 1 r0) as [r1|] eqn:E1; simpl in H; [|done].
  destruct (set_triangle_corner ids i 2 r1) as [r2|] eqn:E2; simpl in H; [|done].
  injection H as <-.
  apply set_triangle_corner_Some in E0 as (a & t0 & t0' & Ha & Ht0 & Hs0 & ->).
  apply set_triangle_corner_Some in E1 as (b & t1 & t1' & Hb & Ht1 & Hs1 & ->).
  apply set_triangle_corner_Some in E2 as (c & t2 & t2' & Hc & Ht2 & Hs2 & ->).
  assert (Hi : (i < length tris)%nat) by (by eapply lookup_lt_Some).
  rewrite list_lookup_insert_eq in Ht1 by done. injection Ht1 as <-.
  rewrite list_lookup_insert_eq in Ht2 by (by rewrite length_insert). injection Ht2 as <-.
  rewrite !list_insert_insert_eq.
  simpl in Hs0, Hs1, Hs2.
  injection Hs0 as <-. injection Hs1 as <-. injection Hs2 as <-.
  exists (mk_ivec3 (to_int (Z.of_N a)) (to_int (Z.of_N b)) (to_int (Z.of_N c))).
  split; [|done].
  unfold read_ivec3. rewrite Nat.add_0_r in Ha. by rewrite Ha, Hb, Hc.
Qed.

Lemma gather_face_Some (mf af ids : list N) (i : nat) (vidx tris : list ivec3)
    (s' : list ivec3 * list ivec3) :
  gather_face mf af ids i (vidx, tris) = Some s' →
  ∃ v t, face_data mf af ids i v t
         ∧ (i < length vidx)%nat ∧ (i < length tris)%nat
         ∧ s' = (<[i := v]> vidx, <[i := t]> tris).
Proof.
  unfold gather_face. cbn [fst snd]. intros H.
  destruct (af !! i) as [f|] eqn:Ef; cbn [mbind option_bind] in H; [|done].
  destruct (read_ivec3 mf (N.to_nat (size_mul f 3))) as [v|] eqn:Ev;
    cbn [mbind option_bind] in H; [|done].
  destruct (vector_set vidx i v) as [vidx'|] eqn:Es; cbn [mbind option_bind] in H; [|done].
  apply vector_set_Some in Es as [Hi ->].
  destruct (for_range (set_triangle_corner ids i) 0 3 tris) as [tris'|] eqn:Et;
    cbn [mbind option_bind] in H; [|done].
  injection H as <-.
  apply set_triangle_corners_Some in Et as (t & Ht & Hi' & ->).
  exists v, t. split; [by exists f|done].
Qed.

Lemma gather_faces_Some (mf af ids : list N) (tris0 vidx tris : list ivec3) :
  gather_faces mf af ids tris0 = Some (vidx, tris) →
  Z.of_nat (length af) <= INT_MAX
  ∧ length vidx = length af ∧ length tris = length af
  ∧ ∀ m, (m < length af)%nat →
      ∃ v t, face_data mf af ids m v t ∧ vidx !! m = Some v ∧ tris !! m = Some t.
Proof.
  unfold gather_faces. rewrite for_int_Some. intros [Hmax Hrun].
  split; [done|].
  pose (P := λ (k : nat) (s : list ivec3 * list ivec3),
    length s.1 = length af ∧ length s.2 = length af
    ∧ ∀ m, (m < k)%nat →
        ∃ v t, face_data mf af ids m v t ∧ s.1 !! m = Some v ∧ s.2 !! m = Some t).
  apply (for_range_invariant _ P) in Hrun; [exact Hrun| |]; unfold P; clear P.
  - cbn [fst snd]. split; [by rewrite length_replicate|].
    split; [by rewrite length_resize|]. intros m Hm. lia.
  - intros k [vi tr] s' Hk (Hl1 & Hl2 & Hprev) Hbody. cbn [fst snd] in *.
    apply gather_face_Some in Hbody as (v & t & Hfd & Hi & Hi' & ->). simpl.
    rewrite !length_insert. split; [done|]. split; [done|].
    intros m Hm. destruct (decide (m = k)) as [->|Hne].
    + exists v, t. by rewrite !list_lookup_insert_eq.
    + destruct (Hprev m) as (v' & t' & ? & ? & ?); [lia|].
      exists v', t'. by rewrite !list_lookup_insert_ne.
Qed.

(** ** The texcoord-to-vertex map *)

Lemma mapped_vertex_unreferenced (pairings : list (Z * Z)) (x : Z) :
  x ∉ pairings.*1 → mapped_vertex pairings x = 0.
Proof.
  unfold mapped_vertex. generalize 0.
  induction pairings as [|[t v] ps IH]; intros a Hx; simpl; [done|].
  rewrite fmap_cons, not_elem_of_cons in Hx. destruct Hx as [Hne Hx].
  unfold pick at 2. simpl. case_decide; [done|]. by apply IH.
Qed.


Lemma mapped_vertex_cases (pairings : list (Z * Z)) (x : Z) :
  ((x ∉ pairings.*1) ∧ mapped_vertex pairings x = 0)
  ∨ (x, mapped_vertex pairings x) ∈ pairings.
Proof.
  induction pairings as [|[t v] ps IH] using rev_ind.
  - left. split; [apply not_elem_of_nil | done].
  - unfold mapped_vertex in *. rewrite foldl_app. cbn [foldl].
    destruct (decide (t = x)) as [->|Ht].
    + right. apply elem_of_app. right. apply list_elem_of_singleton.
      unfold pick. cbn [fst snd]. by rewrite decide_True.
    + replace (pick x (foldl (pick x) 0 ps) (t, v)) with (foldl (pick x) 0 ps)
        by (unfold pick; cbn [fst snd]; by rewrite decide_False).
      destruct IH as [[Hx H0]|Hin].
      * left. split; [|done]. rewrite fmap_app, elem_of_app. cbn [fmap list_fmap fst].
        intros [?|Hin]; [done|]. apply list_elem_of_singleton in Hin. done.
      * right. apply elem_of_app. by left.
Qed.

Lemma length_foldl_store (ps : list (Z * Z)) (acc : list Z) :
  length (foldl store acc ps) = length acc.
Proof.
  revert acc. induction ps as [|p ps IH]; intros acc; simpl; [done|].
  rewrite IH. unfold store. by rewrite length_insert.
Qed.

(** Reading the map after all assignments. *)
Lemma lookup_foldl_store (ps : list (Z * Z)) :
  ∀ (acc : list Z) (x : nat) (a : Z),
    Forall (λ p, 0 <= p.1) ps →
    acc !! x = Some a →
    foldl store acc ps !! x = Some (foldl (pick (Z.of_nat x)) a ps).
Proof.
  induction ps as [|[t v] ps IH]; intros acc x a Hps Hx; simpl; [done|].
  inversion Hps as [|? ? Ht Hps']; subst. simpl in Ht.
  apply IH; [done|]. unfold store, pick. simpl.
  case_decide as Htx.
  - subst t. rewrite Nat2Z.id. apply list_lookup_insert_eq. by eapply lookup_lt_Some.
  - rewrite list_lookup_insert_ne by lia. done.
Qed.

Lemma read_ivec3_range (src : list N) (s : nat) (t : ivec3) :
  read_ivec3 src s = Some t →
  (INT_MIN <= c0 t <= INT_MAX) ∧ (INT_MIN <= c1 t <= INT_MAX) ∧ (INT_MIN <= c2 t <= INT_MAX).
Proof.
  unfold read_ivec3. intros H.
  destruct (src !! s) as [a|]; cbn [mbind option_bind] in H; [|done].
  destruct (src !! (s + 1)%nat) as [b|]; cbn [mbind option_bind] in H; [|done].
  destruct (src !! (s + 2)%nat) as [c|]; cbn [mbind option_bind] in H; [|done].
  injection H as <-. simpl. auto using to_int_range.
Qed.

(** An [int] used as an index into a vector that is not longer than
    [INT_MAX]: inside the vector, the index is not negative. *)
Lemma index_in_vector (tj : Z) (n : nat) :
  INT_MIN <= tj <= INT_MAX → Z.of_nat n <= INT_MAX →
  (N.to_nat (to_size_t tj) < n)%nat →
  0 <= tj < Z.of_nat n ∧ N.to_nat (to_size_t tj) = Z.to_nat tj.
Proof.
  intros Hr Hn Hlt. destruct (Z.lt_ge_cases tj 0) as [Hneg|Hpos].
  - pose proof (to_size_t_negative tj (conj (proj1 Hr) Hneg)) as Hbig.
    unfold INT_MAX in Hn. lia.
  - rewrite to_size_t_nonneg in * by lia. lia.
Qed.

Lemma assign_corner_Some (tris vidx : list ivec3) (i j : nat) (t v : ivec3)
    (tcvi r : list Z) :
  tris !! i = Some t → vidx !! i = Some v →
  assign_corner tris vidx i j tcvi = Some r →
  ∃ tj vj, ivec3_get t j = Some tj ∧ ivec3_get v j = Some vj
           ∧ (N.to_nat (to_size_t tj) < length tcvi)%nat
           ∧ r = <[N.to_nat (to_size_t tj) := vj]> tcvi.
Proof.
  unfold assign_corner. intros -> ->. cbn [mbind option_bind]. intros H.
  destruct (ivec3_get t j) as [tj|]; cbn [mbind option_bind] in H; [|done].
  destruct (ivec3_get v j) as [vj|]; cbn [mbind option_bind] in H; [|done].
  apply vector_set_Some in H as [Hlt ->]. by exists tj, vj.
Qed.

Lemma assign_face_Some (tris vidx : list ivec3) (i : nat) (t v : ivec3) (tcvi r : list Z) :
  tris !! i = Some t → vidx !! i = Some v →
  (INT_MIN <= c0 t <= INT_MAX) ∧ (INT_MIN <= c1 t <= INT_MAX) ∧ (INT_MIN <= c2 t <= INT_MAX) →
  Z.of_nat (length tcvi) <= INT_MAX →
  assign_face tris vidx i tcvi = Some r →
  Forall (λ p, 0 <= p.1 < Z.of_nat (length tcvi)) [(c0 t, c0 v); (c1 t, c1 v); (c2 t, c2 v)]
  ∧ r = foldl store tcvi [(c0 t, c0 v); (c1 t, c1 v); (c2 t, c2 v)].
Proof.
  intros Ht Hv (R0 & R1 & R2) Hn H. unfold assign_face in H. simpl in H.
  destruct (assign_corner tris vidx i 0 tcvi) as [r0|] eqn:E0;
    cbn [mbind option_bind] in H; [|done].
  destruct (assign_corner tris vidx i 1 r0) as [r1|] eqn:E1;
    cbn [mbind option_bind] in H; [|done].
  destruct (assign_corner tris vidx i 2 r1) as [r2|] eqn:E2;
    cbn [mbind option_bind] in H; [|done].
  injection H as <-.
  apply (assign_corner_Some _ _ _ _ t v) in E0 as (t0 & v0 & Ht0 & Hv0 & L0 & ->); [|done..].
  apply (assign_corner_Some _ _ _ _ t v) in E1 as (t1 & v1 & Ht1 & Hv1 & L1 & ->); [|done..].
  apply (assign_corner_Some _ _ _ _ t v) in E2 as (t2 & v2 & Ht2 & Hv2 & L2 & ->); [|done..].
  simpl in Ht0, Ht1, Ht2, Hv0, Hv1, Hv2.
  injection Ht0 as <-. injection Ht1 as <-. injection Ht2 as <-.
  injection Hv0 as <-. injection Hv1 as <-. injection Hv2 as <-.
  rewrite !length_insert in *.
  destruct (index_in_vector (c0 t) (length tcvi) R0 Hn L0) as [B0 ->].
  destruct (index_in_vector (c1 t) (length tcvi) R1 Hn L1) as [B1 ->].
  destruct (index_in_vector (c2 t) (length tcvi) R2 Hn L2) as [B2 ->].
  split; [|done]. repeat constructor; simpl; lia.
Qed.

Section SecondLoop.

Variables (mf af ids : list N) (tris vidx : list ivec3).

Hypothesis gathered :
  ∀ m, (m < length af)%nat →
    ∃ v t, face_data mf af ids m v t ∧ vidx !! m = Some v ∧ tris !! m = Some t.

Lemma corner_pairings_from_step (i : nat) (v t : ivec3) :
  face_data mf af ids i v t →
  corner_pairings_from mf ids i (drop i af)
  = [(c0 t, c0 v); (c1 t, c1 v); (c2 t, c2 v)]
    ++ corner_pairings_from mf ids (S i) (drop (S i) af).
Proof.
  intros (f & Hf & Hv & Ht).
  rewrite (drop_S af f i Hf). cbn [corner_pairings_from].
  unfold face_pairings. by rewrite Ht, Hv.
Qed.

(** The second loop performs the assignments of the pairings in order, and
    every texcoord index it uses lies inside the map. *)
Lemma assign_faces_run (count : nat) :
  ∀ i acc r,
    (i + count)%nat = length af →
    Z.of_nat (length acc) <= INT_MAX →
    for_range (assign_face tris vidx) i count acc = Some r →
    Forall (λ p, 0 <= p.1 < Z.of_nat (length acc))
      (corner_pairings_from mf ids i (drop i af))
    ∧ r = foldl store acc (corner_pairings_from mf ids i (drop i af)).
Proof.
  induction count as [|count IH]; intros i acc r Hi Hn Hrun; simpl in Hrun.
  - injection Hrun as <-. rewrite drop_ge by lia. by split.
  - destruct (assign_face tris vidx i acc) as [r0|] eqn:Hb;
      cbn [mbind option_bind] in Hrun; [|done].
    destruct (gathered i) as (v & t & Hfd & Hv & Ht); [lia|].
    rewrite (corner_pairings_from_step i v t Hfd).
    assert (Hrange := Hfd). destruct Hrange as (f & _ & _ & Hrange).
    apply read_ivec3_range in Hrange.
    destruct (assign_face_Some tris vidx i t v acc r0 Ht Hv Hrange Hn Hb) as [HF ->].
    destruct (IH (S i) _ r ltac:(lia)
                ltac:(by rewrite length_foldl_store) Hrun) as [HF' ->].
    rewrite length_foldl_store in HF'.
    split; [by apply Forall_app | by rewrite foldl_app].
Qed.

(** Conversely the loop is defined when every texcoord index lies inside. *)
Lemma assign_faces_defined (count : nat) :
  ∀ i acc,
    (i + count)%nat = length af →
    Forall (λ p, 0 <= p.1 < Z.of_nat (length acc))
      (corner_pairings_from mf ids i (drop i af)) →
    for_range (assign_face tris vidx) i count acc
    = Some (foldl store acc (corner_pairings_from mf ids i (drop i af))).
Proof.
  induction count as [|count IH]; intros i acc Hi HF; cbn [for_range].
  - by rewrite drop_ge by lia.
  - destruct (gathered i) as (v & t & Hfd & Hv & Ht); [lia|].
    rewrite (corner_pairings_from_step i v t Hfd) in *.
    apply Forall_app in HF as [HF3 HF'].
    assert (Hrange := Hfd). destruct Hrange as (f & _ & _ & Hrange).
    apply read_ivec3_range in Hrange as (R0 & R1 & R2).
    inversion HF3 as [|? ? B0 HF2]; subst. inversion HF2 as [|? ? B1 HF1]; subst.
    inversion HF1 as [|? ? B2 _]; subst. cbn [fst] in B0, B1, B2.
    assert (Hb : assign_face tris vidx i acc
                 = Some (foldl store acc [(c0 t, c0 v); (c1 t, c1 v); (c2 t, c2 v)])).
    { unfold assign_face, assign_corner. cbn [for_range].
      rewrite Ht, Hv. cbn [mbind option_bind ivec3_get].
      unfold vector_set.
      rewrite !to_size_t_nonneg by lia.
      rewrite decide_True by lia. cbn [mbind option_bind].
      rewrite decide_True by (rewrite length_insert; lia). cbn [mbind option_bind].
      rewrite decide_True by (rewrite !length_insert; lia). done. }
    rewrite Hb. cbn [mbind option_bind].
    rewrite IH; [by rewrite foldl_app|lia|by rewrite length_foldl_store].
Qed.

Lemma build_texcoord_map_Some (n : nat) (tcvi : list Z) :
  Z.of_nat n <= INT_MAX →
  length tris = length af →
  build_texcoord_map tris vidx n = Some tcvi →
  Forall (λ p, 0 <= p.1 < Z.of_nat n) (corner_pairings_from mf ids 0 af)
  ∧ tcvi = foldl store (replicate n 0) (corner_pairings_from mf ids 0 af).
Proof.
  intros Hn Hlen. unfold build_texcoord_map. rewrite for_int_Some. intros [_ Hrun].
  apply assign_faces_run in Hrun; [|by rewrite Hlen|by rewrite length_replicate].
  by rewrite length_replicate, drop_0 in Hrun.
Qed.

Lemma build_texcoord_map_defined (n : nat) :
  Z.of_nat (length af) <= INT_MAX →
  length tris = length af →
  Forall (λ p, 0 <= p.1 < Z.of_nat n) (corner_pairings_from mf ids 0 af) →
  build_texcoord_map tris vidx n
  = Some (foldl store (replicate n 0) (corner_pairings_from mf ids 0 af)).
Proof.
  intros Hmax Hlen HF. unfold build_texcoord_map, for_int.
  rewrite decide_True by (by rewrite Hlen).
  rewrite assign_faces_defined; [by rewrite drop_0|by rewrite Hlen|].
  by rewrite length_replicate, drop_0.
Qed.

End SecondLoop.

(** Every entry of the finished map is the vertex of the last pairing of its
    texcoord index, or 0. *)
Lemma lookup_texcoord_map (pairings : list (Z * Z)) (n x : nat) :
  Forall (λ p, 0 <= p.1 < Z.of_nat n) pairings →
  (x < n)%nat →
  foldl store (replicate n 0) pairings !! x = Some (mapped_vertex pairings (Z.of_nat x)).
Proof.
  intros HF Hx. apply lookup_foldl_store.
  - eapply Forall_impl; [exact HF|]. intros p Hp. simpl in Hp. lia.
  - by apply lookup_replicate_2.
Qed.

(** ** The third and fourth loops *)

Section VertexData.

Context {V3 : Type}.
Variables (zero3 : V3) (src : list V3) (tcvi : list Z).

Lemma copy_vertex_datum_Some (i : nat) (dst r : list V3) :
  copy_vertex_datum src tcvi i dst = Some r ↔
  ∃ k p, tcvi !! i = Some k ∧ 0 <= k ∧ src !! Z.to_nat k = Some p
         ∧ (i < length dst)%nat ∧ r = <[i := p]> dst.
Proof.
  unfold copy_vertex_datum. split.
  - intros H. destruct (tcvi !! i) as [k|]; cbn [mbind option_bind] in H; [|done].
    destruct (Z.ltb_spec k 0) as [|Hk]; [done|].
    apply memcpy_one in H as (Hi & p & Hp & ->). by exists k, p.
  - intros (k & p & -> & Hk & Hp & Hi & ->). cbn [mbind option_bind].
    destruct (Z.ltb_spec k 0) as [|_]; [lia|].
    apply memcpy_one. split; [done|]. by exists p.
Qed.

Lemma copy_vertex_data_Some (n : nat) (dst r : list V3) :
  copy_vertex_data zero3 src tcvi n dst = Some r →
  Z.of_nat n <= INT_MAX ∧ length r = n
  ∧ ∀ x, (x < n)%nat →
      ∃ k p, tcvi !! x = Some k ∧ 0 <= k ∧ src !! Z.to_nat k = Some p ∧ r !! x = Some p.
Proof.
  unfold copy_vertex_data. rewrite for_int_Some, length_resize. intros [Hmax Hrun].
  split; [done|].
  pose (P := λ (i : nat) (d : list V3),
    length d = n
    ∧ ∀ x, (x < i)%nat →
        ∃ k p, tcvi !! x = Some k ∧ 0 <= k ∧ src !! Z.to_nat k = Some p ∧ d !! x = Some p).
  apply (for_range_invariant _ P) in Hrun; [exact Hrun| |]; unfold P; clear P.
  - split; [by rewrite length_resize|]. intros x Hx. lia.
  - intros i d d' Hi [Hlen Hprev] Hbody.
    apply copy_vertex_datum_Some in Hbody as (k & p & Hk & Hk0 & Hp & Hid & ->).
    rewrite length_insert. split; [done|].
    intros x Hx. destruct (decide (x = i)) as [->|Hne].
    + exists k, p. by rewrite list_lookup_insert_eq.
    + destruct (Hprev x) as (k' & p' & ? & ? & ? & ?); [lia|].
      exists k', p'. by rewrite list_lookup_insert_ne.
Qed.

(** The loop is defined as soon as every entry of the map is the index of an
    element of [src]. *)
Lemma copy_vertex_data_defined (n : nat) (dst : list V3) :
  Z.of_nat n <= INT_MAX →
  (∀ x, (x < n)%nat → ∃ k, tcvi !! x = Some k ∧ 0 <= k < Z.of_nat (length src)) →
  is_Some (copy_vertex_data zero3 src tcvi n dst).
Proof.
  intros Hmax Hin. unfold copy_vertex_data, for_int. rewrite length_resize.
  rewrite decide_True by done.
  destruct (for_range_defined (copy_vertex_datum src tcvi) (λ _ d, length d = n) n 0
              (resize n zero3 dst)) as (r & Hr & _); [by rewrite length_resize| |by eexists].
  intros i d Hi Hlen. destruct (Hin i) as (k & Hk & Hk0); [lia|].
  destruct (lookup_lt_is_Some_2 src (Z.to_nat k)) as [p Hp]; [lia|].
  exists (<[i := p]> d). split; [|by rewrite length_insert].
  apply copy_vertex_datum_Some. exists k, p. repeat split; [done|lia|done|lia].
Qed.

End VertexData.

(** ** build_model as a whole *)

Section PairingMembership.

Variables (mf af ids : list N) (tris vidx : list ivec3).

Hypothesis gathered :
  ∀ m, (m < length af)%nat →
    ∃ v t, face_data mf af ids m v t ∧ vidx !! m = Some v ∧ tris !! m = Some t.

(** The pairings of face [m] are among the pairings of the atlas. *)
Lemma corner_pairings_from_elem (d : nat) :
  ∀ i m v t, m = (i + d)%nat → (m < length af)%nat →
    face_data mf af ids m v t →
    [(c0 t, c0 v); (c1 t, c1 v); (c2 t, c2 v)]
      ⊆ corner_pairings_from mf ids i (drop i af).
Proof.
  induction d as [|d IH]; intros i m v t Hm Hlt Hfd p Hp.
  - rewrite Nat.add_0_r in Hm. subst m.
    rewrite (corner_pairings_from_step mf af ids i v t Hfd).
    apply elem_of_app. by left.
  - destruct (gathered i) as (v' & t' & Hfd' & _); [lia|].
    rewrite (corner_pairings_from_step mf af ids i v' t' Hfd').
    apply elem_of_app. right. apply (IH (S i) m v t); [lia|done..].
Qed.

End PairingMembership.

Section BuildModel.

Context {V3 V2 : Type}.
Variables (zero3 : V3) (zero2 : V2).
Implicit Types (mesh : TriangleMesh V3) (a : TextureAtlas V2) (out : Buffers V3 V2).

Lemma build_model_nil mesh out : build_model zero3 zero2 mesh [] out = Some out.
Proof. reflexivity. Qed.

Lemma build_model_front mesh a rest rest' out :
  build_model zero3 zero2 mesh (a :: rest) out = build_model zero3 zero2 mesh (a :: rest') out.
Proof. reflexivity. Qed.

(** A defined run on a non-empty atlas list went through every step. *)
Lemma build_model_cons_Some mesh a rest out out' :
  build_model zero3 zero2 mesh (a :: rest) out = Some out' →
  ∃ td vidx tris tcvi pts nrm,
    copy_texture (get_image a) (textureData out) = Some td
    ∧ gather_faces (get_faces mesh) (atlas_get_faces a) (get_texcoord_ids a)
        (triangles out) = Some (vidx, tris)
    ∧ build_texcoord_map tris vidx (length (get_texcoords a)) = Some tcvi
    ∧ copy_vertex_data zero3 (get_vertices mesh) tcvi (length (get_texcoords a))
        (points out) = Some pts
    ∧ copy_vertex_data zero3 (get_vertex_normals mesh) tcvi (length (get_texcoords a))
        (normals out) = Some nrm
    ∧ out' = mkBuffers pts nrm (get_texcoords a) tris
               (width (get_image a)) (height (get_image a)) td.
Proof.
  unfold build_model. intros H.
  destruct (copy_texture (get_image a) (textureData out)) as [td|] eqn:Etd;
    cbn [mbind option_bind] in H; [|done].
  rewrite copy_texcoords_eq in H. cbn [mbind option_bind] in H.
  destruct (gather_faces (get_faces mesh) (atlas_get_faces a) (get_texcoord_ids a)
              (triangles out)) as [[vidx tris]|] eqn:Eg;
    cbn [mbind option_bind] in H; [|done].
  destruct (build_texcoord_map tris vidx (length (get_texcoords a))) as [tcvi|] eqn:Em;
    cbn [mbind option_bind] in H; [|done].
  destruct (copy_vertex_data zero3 (get_vertices mesh) tcvi (length (get_texcoords a))
              (points out)) as [pts|] eqn:Ep;
    cbn [mbind option_bind] in H; [|done].
  destruct (copy_vertex_data zero3 (get_vertex_normals mesh) tcvi
              (length (get_texcoords a)) (normals out)) as [nrm|] eqn:En;
    cbn [mbind option_bind] in H; [|done].
  injection H as <-. by exists td, vidx, tris, tcvi, pts, nrm.
Qed.

(** Everything a defined run on a non-empty atlas list establishes. *)
Lemma build_model_facts mesh a rest out out' :
  build_model zero3 zero2 mesh (a :: rest) out = Some out' →
  let n := length (get_texcoords a) in
  let pairings := corner_pairings mesh a in
  Z.of_nat n <= INT_MAX
  ∧ Forall (λ p, 0 <= p.1 < Z.of_nat n) pairings
  ∧ texCoords out' = get_texcoords a
  ∧ length (points out') = n ∧ length (normals out') = n
  ∧ length (triangles out') = length (atlas_get_faces a)
  ∧ (∀ x, (x < n)%nat →
       ∃ p q, 0 <= mapped_vertex pairings (Z.of_nat x)
         ∧ get_vertices mesh !! Z.to_nat (mapped_vertex pairings (Z.of_nat x)) = Some p
         ∧ get_vertex_normals mesh !! Z.to_nat (mapped_vertex pairings (Z.of_nat x)) = Some q
         ∧ points out' !! x = Some p ∧ normals out' !! x = Some q)
  ∧ (∀ m, (m < length (atlas_get_faces a))%nat →
       ∃ t, read_ivec3 (get_texcoord_ids a) (3 * m) = Some t
            ∧ triangles out' !! m = Some t
            ∧ Forall (λ c, 0 <= c < Z.of_nat n) [c0 t; c1 t; c2 t]).
Proof.
  intros H n pairings.
  apply build_model_cons_Some in H
    as (td & vidx & tris & tcvi & pts & nrm & Htd & Hg & Hm & Hp & Hn & ->).
  apply gather_faces_Some in Hg as (Hmax & Hlv & Hlt & Hgathered).
  apply copy_vertex_data_Some in Hp as (Hnmax & Hlp & Hpts).
  apply copy_vertex_data_Some in Hn as (_ & Hln & Hnrm).
  apply (build_texcoord_map_Some _ _ _ _ _ Hgathered _ _ Hnmax Hlt) in Hm as [HF ->].
  fold n in Hpts, Hnrm, HF, Hlp, Hln, Hnmax.
  change (corner_pairings_from _ _ 0 _) with pairings in *.
  cbn [points normals texCoords triangles].
  split_and!; try done.
  - intros x Hx.
    destruct (Hpts x Hx) as (k & p & Hk & Hk0 & Hsrc & Hout).
    destruct (Hnrm x Hx) as (k' & q & Hk' & _ & Hsrc' & Hout').
    rewrite lookup_texcoord_map in Hk, Hk' by done.
    injection Hk as <-. injection Hk' as <-.
    by exists p, q.
  - intros m Hm. destruct (Hgathered m Hm) as (v & t & Hfd & Hv & Ht).
    exists t. destruct Hfd as (f & Hf & Hrv & Hrt). split; [done|]. split; [done|].
    assert (Hsub : [(c0 t, c0 v); (c1 t, c1 v); (c2 t, c2 v)] ⊆ pairings).
    { unfold pairings, corner_pairings.
      change (atlas_get_faces a) with (drop 0 (atlas_get_faces a)) at 1.
      apply (corner_pairings_from_elem _ _ _ tris vidx Hgathered m 0 m v t);
        [done|done|by exists f]. }
    rewrite Forall_forall in HF.
    apply Forall_cons. split.
    { apply (HF (c0 t, c0 v)), Hsub. apply list_elem_of_here. }
    apply Forall_cons. split.
    { apply (HF (c1 t, c1 v)), Hsub. apply list_elem_of_further, list_elem_of_here. }
    apply Forall_cons. split; [|by constructor].
    apply (HF (c2 t, c2 v)), Hsub. do 2 apply list_elem_of_further. apply list_elem_of_here.
Qed.

End BuildModel.

Lemma read_ivec3_Some (src : list N) (s : nat) (t : ivec3) :
  read_ivec3 src s = Some t →
  ∃ i0 i1 i2,
    src !! s = Some i0 ∧ src !! (s + 1)%nat = Some i1 ∧ src !! (s + 2)%nat = Some i2
    ∧ t = mk_ivec3 (to_int (Z.of_N i0)) (to_int (Z.of_N i1)) (to_int (Z.of_N i2)).
Proof.
  unfold read_ivec3. intros H.
  destruct (src !! s) as [i0|]; cbn [mbind option_bind] in H; [|done].
  destruct (src !! (s + 1)%nat) as [i1|]; cbn [mbind option_bind] in H; [|done].
  destruct (src !! (s + 2)%nat) as [i2|]; cbn [mbind option_bind] in H; [|done].
  injection H as <-. by exists i0, i1, i2.
Qed.

(** ** The consolidation claims *)

Section Consolidation.

Context {V3 V2 : Type}.
Variables (zero3 : V3) (zero2 : V2).
Implicit Types (mesh : TriangleMesh V3) (a : TextureAtlas V2) (out : Buffers V3 V2).

(** C3.  On a non-empty atlas list [build_model] builds, from the corner
    pairings (texcoord index, vertex index) of the faces of the first atlas,
    a map from texcoord index to mesh vertex index ([mapped_vertex]: the last
    pairing of a texcoord index decides, 0 without a pairing); every output
    vertex [x] then carries the mesh position and the mesh normal at the
    mapped vertex index.  The map need not be injective: output vertices with
    the same mapped vertex carry the same data, and there are runs in which
    two distinct output vertices map to one mesh vertex.  Indices are the
    [int] values the code holds. *)
Theorem build_model_vertex_data :
  (∀ mesh a rest out out',
     build_model zero3 zero2 mesh (a :: rest) out = Some out' →
     let pairings := corner_pairings mesh a in
     (∀ x, (x < length (get_texcoords a))%nat →
        ((Z.of_nat x, mapped_vertex pairings (Z.of_nat x)) ∈ pairings
         ∨ ((Z.of_nat x ∉ pairings.*1) ∧ mapped_vertex pairings (Z.of_nat x) = 0))
        ∧ 0 <= mapped_vertex pairings (Z.of_nat x)
        ∧ ∃ p q,
            get_vertices mesh !! Z.to_nat (mapped_vertex pairings (Z.of_nat x)) = Some p
            ∧ get_vertex_normals mesh !! Z.to_nat (mapped_vertex pairings (Z.of_nat x))
              = Some q
            ∧ points out' !! x = Some p
            ∧ normals out' !! x = Some q)
     ∧ (∀ x y, (x < length (get_texcoords a))%nat → (y < length (get_texcoords a))%nat →
          mapped_vertex pairings (Z.of_nat x) = mapped_vertex pairings (Z.of_nat y) →
          points out' !! x = points out' !! y ∧ normals out' !! x = normals out' !! y))
  ∧ (∃ mesh a out out' (x y : nat),
       build_model zero3 zero2 mesh [a] out = Some out'
       ∧ x ≠ y
       ∧ (x < length (get_texcoords a))%nat ∧ (y < length (get_texcoords a))%nat
       ∧ mapped_vertex (corner_pairings mesh a) (Z.of_nat x)
         = mapped_vertex (corner_pairings mesh a) (Z.of_nat y)).
Proof.
  split.
  - intros mesh a rest out out' H pairings.
    apply build_model_facts in H as (_ & _ & _ & _ & _ & _ & Hdata & _).
    fold pairings in Hdata. split.
    + intros x Hx. destruct (Hdata x Hx) as (p & q & H0 & Hp & Hq & Hop & Hoq).
      split; [|split; [done | by exists p, q]].
      destruct (mapped_vertex_cases pairings (Z.of_nat x)) as [?|?]; [by right | by left].
    + intros x y Hx Hy Heq.
      destruct (Hdata x Hx) as (p & q & _ & Hp & Hq & -> & ->).
      destruct (Hdata y Hy) as (p' & q' & _ & Hp' & Hq' & -> & ->).
      rewrite Heq in Hp, Hq. split; congruence.
  - exists (mkMesh [zero3] [zero3] [0%N; 0%N; 0%N]),
      (mkAtlas (mkImage 0 0 []) [0%N] [zero2; zero2; zero2] [0%N; 1%N; 2%N]),
      (mkBuffers [] [] [] [] 0 0 []),
      (mkBuffers [zero3; zero3; zero3] [zero3; zero3; zero3] [zero2; zero2; zero2]
         [mk_ivec3 0 1 2] 0 0 []),
      0%nat, 1%nat.
    split; [reflexivity|]. split; [done|]. simpl. split; [lia|]. split; [lia|].
    reflexivity.
Qed.

(** C4.  After a run on a non-empty atlas list, [points], [normals] and
    [texCoords] have the same length, which is the number of texcoords of the
    first atlas; [texCoords] is that atlas's texcoord array itself, and every
    index below that length is filled in all three arrays. *)
Theorem build_model_vertex_count mesh a rest out out' :
  build_model zero3 zero2 mesh (a :: rest) out = Some out' →
  length (points out') = length (normals out')
  ∧ length (normals out') = length (texCoords out')
  ∧ length (texCoords out') = length (get_texcoords a)
  ∧ texCoords out' = get_texcoords a
  ∧ ∀ x, (x < length (get_texcoords a))%nat →
      is_Some (points out' !! x) ∧ is_Some (normals out' !! x)
      ∧ texCoords out' !! x = get_texcoords a !! x
      ∧ is_Some (get_texcoords a !! x).
Proof.
  intros H.
  apply build_model_facts in H as (_ & _ & Htc & Hlp & Hln & _ & Hdata & _).
  rewrite Htc, Hlp, Hln. split_and!; try done.
  intros x Hx. destruct (Hdata x Hx) as (p & q & _ & _ & _ & -> & ->).
  split_and!; try by eexists. by apply lookup_lt_is_Some_2.
Qed.

(** C5.  A run on a non-empty atlas list emits one triangle per face of the
    first atlas; triangle [m] holds the three entries [3m], [3m+1], [3m+2] of
    the atlas's texcoord-index array (converted to [int]), and every entry
    of every triangle is an index into [points].  When all texcoord indices
    of the atlas are below its texcoord count the entries are the stored
    indices themselves. *)
Theorem build_model_triangles mesh a rest out out' :
  build_model zero3 zero2 mesh (a :: rest) out = Some out' →
  length (triangles out') = length (atlas_get_faces a)
  ∧ (∀ m, (m < length (atlas_get_faces a))%nat →
       ∃ i0 i1 i2,
         get_texcoord_ids a !! (3 * m)%nat = Some i0
         ∧ get_texcoord_ids a !! (3 * m + 1)%nat = Some i1
         ∧ get_texcoord_ids a !! (3 * m + 2)%nat = Some i2
         ∧ triangles out' !! m
           = Some (mk_ivec3 (to_int (Z.of_N i0)) (to_int (Z.of_N i1)) (to_int (Z.of_N i2)))
         ∧ (Forall (λ id, (id < N.of_nat (length (get_texcoords a)))%N)
              (get_texcoord_ids a) →
            triangles out' !! m = Some (mk_ivec3 (Z.of_N i0) (Z.of_N i1) (Z.of_N i2))))
  ∧ (∀ m t, triangles out' !! m = Some t →
       Forall (λ c, 0 <= c < Z.of_nat (length (points out'))) [c0 t; c1 t; c2 t]).
Proof.
  intros H.
  apply build_model_facts in H as (Hnmax & _ & _ & Hlp & _ & Hlt & _ & Htris).
  split; [done|]. split.
  - intros m Hm. destruct (Htris m Hm) as (t & Hr & Ht & _).
    apply read_ivec3_Some in Hr as (i0 & i1 & i2 & H0 & H1 & H2 & ->).
    exists i0, i1, i2. split_and!; try done.
    intros Hids. rewrite Forall_lookup in Hids.
    pose proof (Hids _ _ H0) as B0. pose proof (Hids _ _ H1) as B1.
    pose proof (Hids _ _ H2) as B2. simpl in B0, B1, B2.
    unfold INT_MAX in Hnmax.
    rewrite Ht, !to_int_small by (unfold INT_MIN, INT_MAX; lia). done.
  - intros m t Ht. rewrite Hlp.
    assert (Hm : (m < length (atlas_get_faces a))%nat).
    { rewrite <- Hlt. by eapply lookup_lt_Some. }
    destruct (Htris m Hm) as (t' & _ & Ht' & HF). congruence.
Qed.

(** C6, as the code has it.  On an empty atlas list [build_model] raises
    no error and leaves every output buffer as the caller passed it; the
    model is empty only when the buffers were passed in empty. *)
Theorem build_model_no_atlas mesh out :
  build_model zero3 zero2 mesh [] out = Some out
  ∧ (points out = [] ∧ normals out = [] ∧ texCoords out = [] ∧ triangles out = [] ↔
     ∃ out', build_model zero3 zero2 mesh [] out = Some out'
             ∧ points out' = [] ∧ normals out' = [] ∧ texCoords out' = []
             ∧ triangles out' = []).
Proof.
  split; [reflexivity|]. split.
  - intros (? & ? & ? & ?). by exists out.
  - intros (out' & [= <-] & ? & ? & ? & ?). done.
Qed.

(** C7.  On a non-empty atlas list only the first atlas is used:
    [textureWidth] and [textureHeight] are the dimensions of its image,
    [textureData] has width * height * 3 bytes, which are the first bytes of
    that image (all of them when the image has three bytes per pixel), and
    the result does not depend on the atlases that follow. *)
Theorem build_model_first_atlas_texture mesh a rest out out' :
  build_model zero3 zero2 mesh (a :: rest) out = Some out' →
  textureWidth out' = width (get_image a)
  ∧ textureHeight out' = height (get_image a)
  ∧ Z.of_nat (length (textureData out')) = width (get_image a) * height (get_image a) * 3
  ∧ textureData out'
    = take (Z.to_nat (width (get_image a) * height (get_image a) * 3))
        (image_data (get_image a))
  ∧ (Z.of_nat (length (image_data (get_image a)))
     = width (get_image a) * height (get_image a) * 3 →
     textureData out' = image_data (get_image a))
  ∧ ∀ rest', build_model zero3 zero2 mesh (a :: rest') out = Some out'.
Proof.
  intros H. split_and!.
  - by apply build_model_cons_Some in H as (? & ? & ? & ? & ? & ? & _ & _ & _ & _ & _ & ->).
  - by apply build_model_cons_Some in H as (? & ? & ? & ? & ? & ? & _ & _ & _ & _ & _ & ->).
  - apply build_model_cons_Some in H as (td & ? & ? & ? & ? & ? & Htd & _ & _ & _ & _ & ->).
    by apply copy_texture_Some in Htd as (_ & ? & _).
  - apply build_model_cons_Some in H as (td & ? & ? & ? & ? & ? & Htd & _ & _ & _ & _ & ->).
    by apply copy_texture_Some in Htd as (_ & _ & ?).
  - intros Hlen.
    apply build_model_cons_Some in H as (td & ? & ? & ? & ? & ? & Htd & _ & _ & _ & _ & ->).
    apply copy_texture_Some in Htd as (_ & _ & ->). simpl.
    apply take_ge. lia.
  - intros rest'. by rewrite (build_model_front zero3 zero2 mesh a rest' rest).
Qed.

End Consolidation.

Section ZeroDefault.

Context {V3 V2 : Type}.
Variables (zero3 : V3) (zero2 : V2).

(** C10.  The texcoord-to-vertex map starts filled with zeros, so an output
    vertex whose texcoord index occurs in no corner pairing of the atlas
    receives the position and the normal of mesh vertex 0.  Consequently,
    once the first loop has run: if the mesh has a vertex and a normal and
    every texcoord index and vertex index of the pairings is valid, then the
    map is built, each of its entries is the index of a mesh vertex and of a
    mesh normal, every single position or normal copy reads inside the mesh,
    and (the count of output vertices fitting the [int] loop counter) the
    two copy loops run to their end. *)
Theorem texcoord_map_defaults_to_vertex_zero
    (mesh : TriangleMesh V3) (a : TextureAtlas V2) (rest : list (TextureAtlas V2))
    (out : Buffers V3 V2) :
  let n := length (get_texcoords a) in
  let pairings := corner_pairings mesh a in
  (∀ out' x,
     build_model zero3 zero2 mesh (a :: rest) out = Some out' →
     (x < n)%nat → Z.of_nat x ∉ pairings.*1 →
     ∃ p q, get_vertices mesh !! 0%nat = Some p
            ∧ get_vertex_normals mesh !! 0%nat = Some q
            ∧ points out' !! x = Some p ∧ normals out' !! x = Some q)
  ∧ (∀ vidx tris,
       gather_faces (get_faces mesh) (atlas_get_faces a) (get_texcoord_ids a)
         (triangles out) = Some (vidx, tris) →
       get_vertices mesh ≠ [] → get_vertex_normals mesh ≠ [] →
       Forall (λ p, 0 <= p.1 < Z.of_nat n
                    ∧ 0 <= p.2 < Z.of_nat (length (get_vertices mesh))
                    ∧ p.2 < Z.of_nat (length (get_vertex_normals mesh))) pairings →
       ∃ tcvi,
         build_texcoord_map tris vidx n = Some tcvi
         ∧ (∀ x, (x < n)%nat →
              (Z.of_nat x ∉ pairings.*1 → tcvi !! x = Some 0)
              ∧ ∃ k, tcvi !! x = Some k
                     ∧ 0 <= k < Z.of_nat (length (get_vertices mesh))
                     ∧ k < Z.of_nat (length (get_vertex_normals mesh))
                     ∧ ∀ dst : list V3, (x < length dst)%nat →
                         is_Some (copy_vertex_datum (get_vertices mesh) tcvi x dst)
                         ∧ is_Some (copy_vertex_datum (get_vertex_normals mesh) tcvi x dst))
         ∧ (Z.of_nat n <= INT_MAX →
            is_Some (copy_vertex_data zero3 (get_vertices mesh) tcvi n (points out))
            ∧ is_Some (copy_vertex_data zero3 (get_vertex_normals mesh) tcvi n
                         (normals out)))).
Proof.
  intros n pairings. split.
  - intros out' x H Hx Hunref.
    apply build_model_facts in H as (_ & _ & _ & _ & _ & _ & Hdata & _).
    destruct (Hdata x Hx) as (p & q & _ & Hp & Hq & Hop & Hoq).
    fold pairings in Hp, Hq.
    rewrite (mapped_vertex_unreferenced pairings _ Hunref) in Hp, Hq.
    by exists p, q.
  - intros vidx tris Hg Hv Hn Hvalid.
    apply gather_faces_Some in Hg as (Hmax & Hlv & Hlt & Hgathered).
    assert (HF : Forall (λ p, 0 <= p.1 < Z.of_nat n) pairings).
    { eapply Forall_impl; [exact Hvalid|]. intros p Hp. simpl in Hp. tauto. }
    exists (foldl store (replicate n 0) pairings).
    split; [by apply (build_texcoord_map_defined _ _ _ _ _ Hgathered)|].
    assert (Hentry : ∀ x, (x < n)%nat →
              0 <= mapped_vertex pairings (Z.of_nat x)
                < Z.of_nat (length (get_vertices mesh))
              ∧ mapped_vertex pairings (Z.of_nat x)
                < Z.of_nat (length (get_vertex_normals mesh))).
    { intros x Hx.
      destruct (mapped_vertex_cases pairings (Z.of_nat x)) as [[_ ->]|Hin].
      - destruct (get_vertices mesh), (get_vertex_normals mesh); simpl; (done || lia).
      - rewrite Forall_forall in Hvalid. apply Hvalid in Hin. simpl in Hin. lia. }
    split.
    + intros x Hx. rewrite lookup_texcoord_map by done.
      destruct (Hentry x Hx) as [Hk Hk'].
      split; [intros Hunref; by rewrite mapped_vertex_unreferenced|].
      exists (mapped_vertex pairings (Z.of_nat x)). split_and!; try done; try lia.
      intros dst Hdst.
      destruct (lookup_lt_is_Some_2 (get_vertices mesh)
                  (Z.to_nat (mapped_vertex pairings (Z.of_nat x)))) as [p Hp]; [lia|].
      destruct (lookup_lt_is_Some_2 (get_vertex_normals mesh)
                  (Z.to_nat (mapped_vertex pairings (Z.of_nat x)))) as [q Hq]; [lia|].
      split.
      * exists (<[x := p]> dst). apply copy_vertex_datum_Some.
        exists (mapped_vertex pairings (Z.of_nat x)), p.
        rewrite lookup_texcoord_map by done. split_and!; try done; lia.
      * exists (<[x := q]> dst). apply copy_vertex_datum_Some.
        exists (mapped_vertex pairings (Z.of_nat x)), q.
        rewrite lookup_texcoord_map by done. split_and!; try done; lia.
    + intros Hnmax. split.
      * apply copy_vertex_data_defined; [done|]. intros x Hx.
        exists (mapped_vertex pairings (Z.of_nat x)).
        rewrite lookup_texcoord_map by done. split; [done|]. by apply Hentry.
      * apply copy_vertex_data_defined; [done|]. intros x Hx.
        exists (mapped_vertex pairings (Z.of_nat x)).
        rewrite lookup_texcoord_map by done. split; [done|].
        destruct (Hentry x Hx). lia.
Qed.

End ZeroDefault.

(** ** reconstructTexture *)

Lemma memcpy_fresh {A : Type} (z : A) (src : list A) :
  memcpy (resize (length src) z []) 0 src 0 (length src) = Some src.
Proof.
  rewrite <- (length_resize [] (length src) z) at 2.
  rewrite memcpy_whole_defined by (by rewrite length_resize).
  by rewrite length_resize, firstn_all.
Qed.

Lemma string_app_nonempty (s t : string) : t ≠ EmptyString → (s ++ t)%string ≠ EmptyString.
Proof. intros Ht. destruct s; simpl; [done | discriminate]. Qed.

Section Library.

Context {V3 V2 : Type}.
Variables (L : TexLibrary V3 V2) (zero3 : V3) (zero2 : V2).
Variables (conf0 : Arguments (Settings L)) (width height : Z).
Variables (imagesData : list (list Byte.byte)).
Variables (camerasIntrinsic camerasExtrinsic : list (list (Float L))).
Variable out : Buffers V3 V2.

Let conf := reconstruct_conf conf0.
Let run := reconstructTexture L zero3 zero2 conf0 width height imagesData
             camerasIntrinsic camerasExtrinsic out.
Let setup := reconstruct_setup L zero3 width height imagesData
               camerasIntrinsic camerasExtrinsic out.

Lemma mesh_of_buffers_eq :
  mesh_of_buffers zero3 out
  = Some (mkMesh (points out) (normals out)
            (flat_map (λ t, [to_uint (c0 t); to_uint (c1 t); to_uint (c2 t)])
               (triangles out))).
Proof. unfold mesh_of_buffers. by rewrite !memcpy_fresh. Qed.

Lemma reconstruct_setup_defined : ∃ su, setup = Some su.
Proof.
  unfold setup, reconstruct_setup. rewrite mesh_of_buffers_eq. cbn [mbind option_bind].
  destruct (prepare_mesh L _ _) as [mesh_info mesh]. by eexists.
Qed.

Lemma select_views_cases (su : Setup L) :
  (∃ msg, select_views L conf (setup_mesh su) (setup_texture_views su)
            (setup_num_faces su) (setup_graph su) = Returns msg
          ∧ msg ≠ EmptyString ∧ Failure L conf0 su)
  ∨ (∃ tv g, select_views L conf (setup_mesh su) (setup_texture_views su)
               (setup_num_faces su) (setup_graph su) = Proceeds (tv, g)
             ∧ ¬ Failure L conf0 su).
Proof.
  unfold select_views, conf, reconstruct_conf. cbn [labeling_file data_cost_file settings].
  destruct (string_empty (labeling_file conf0)) eqn:El.
  - destruct (string_empty (data_cost_file conf0)) eqn:Ed.
    + right. destruct (calculate_data_costs L _ _ _ _) as [tv dc]. do 2 eexists.
      split; [done|]. intros [what ? Hd _| Hl _ | i l Hl _ _]; congruence.
    + destruct (DataCosts_load_from_file L _ _) as [what|dc] eqn:Eload.
      * left. eexists. split; [done|]. split.
        { apply string_app_nonempty, string_app_nonempty. discriminate. }
        by apply (CostFileLoadFailure L conf0 su what).
      * right. do 2 eexists. split; [done|].
        intros [what ? Hd Hload| Hl _ | i l Hl _ _]; congruence.
  - unfold reconstructTexture_load_labeling.
    destruct (load_labeling _ _ _) as [[|] g'] eqn:Eload.
    + right. do 2 eexists. split; [done|].
      assert (Hv : valid_labeling (N.of_nat (length (setup_texture_views su)))
                     (vector_from_file L (labeling_file conf0)) (setup_graph su)).
      { apply load_labeling_done_iff. by rewrite Eload. }
      destruct Hv as [Hlen HF].
      intros [what Hl _ _| _ Hne | i l _ Hi Hlt]; [congruence|done|].
      rewrite Forall_lookup in HF. specialize (HF i l Hi). simpl in HF. lia.
    + left. eexists. split; [done|]. split; [discriminate|].
      assert (Hnv : ¬ valid_labeling (N.of_nat (length (setup_texture_views su)))
                      (vector_from_file L (labeling_file conf0)) (setup_graph su)).
      { intros Hv. apply load_labeling_done_iff in Hv. by rewrite Eload in Hv. }
      destruct (decide (length (vector_from_file L (labeling_file conf0))
                        = num_nodes (setup_graph su))) as [Hlen|Hlen].
      * destruct (decide (Forall (λ l, (l <= N.of_nat (length (setup_texture_views su)))%N)
                            (vector_from_file L (labeling_file conf0)))) as [HF|HF].
        { destruct Hnv. by split. }
        apply not_Forall_Exists, Exists_exists in HF; [|apply _].
        destruct HF as (l & Hin & Hl). apply list_elem_of_lookup in Hin as [i Hi].
        apply (LabelOutOfRange L conf0 su i l); [done|done|]. simpl in Hl. lia.
      * by apply LabelingLengthMismatch.
Qed.

(** C8.  Every failure of [reconstructTexture] (the cost file does not load,
    the labeling has the wrong length, a label is out of range) makes it
    return a non-empty string, with the output buffers untouched; every
    result of the function is a returned string, never a process exit, and
    that string is empty exactly when no failure occurred. *)
Theorem reconstructTexture_result_contract :
  ∃ su, setup = Some su
    ∧ (Failure L conf0 su →
         ∃ msg, run = Some (Returns msg, out) ∧ msg ≠ EmptyString)
    ∧ (∀ r out', run = Some (r, out') →
         ∃ msg, r = Returns msg
                ∧ (msg = EmptyString ↔ ¬ Failure L conf0 su)
                ∧ (msg ≠ EmptyString ↔ Failure L conf0 su)).
Proof.
  destruct reconstruct_setup_defined as [su Hsu]. exists su. split; [done|].
  unfold run, reconstructTexture. fold setup. rewrite Hsu. cbn [mbind option_bind].
  fold conf.
  destruct (select_views_cases su) as [(msg & -> & Hmsg & Hfail)|(tv & g & -> & Hok)].
  - split; [intros _; by exists msg|].
    intros r out' [= <- <-]. exists msg. split; [done|]. split; split; done.
  - split; [done|].
    intros r out' Hrun.
    destruct (build_model _ _ _ _ _) as [o|]; cbn [mbind option_bind] in Hrun; [|done].
    injection Hrun as <- <-. exists EmptyString. split; [done|]. split; split; done.
Qed.

End Library.

Section BufferReuse.

Context {V3 V2 : Type}.
Variables (zero3 : V3) (zero2 : V2).

(** C9.  [reconstructTexture] copies the caller's [points], [normals] and
    [triangles] into its internal mesh, and on success hands the same buffers
    to [build_model]: with at least one atlas they then hold the consolidated
    model (as many points and normals as the first atlas has texcoords, one
    triangle per atlas face, data taken from the prepared mesh), so the
    caller's mesh is overwritten, as one run shows; without an atlas they are
    returned as they were passed, still holding the input mesh. *)
Theorem reconstructTexture_reuses_mesh_buffers :
  (∀ (L : TexLibrary V3 V2) conf0 width height imagesData
     camerasIntrinsic camerasExtrinsic (out : Buffers V3 V2),
     let mesh0 :=
       mkMesh (points out) (normals out)
         (flat_map (λ t, [to_uint (c0 t); to_uint (c1 t); to_uint (c2 t)])
            (triangles out)) in
     let conf := reconstruct_conf conf0 in
     mesh_of_buffers zero3 out = Some mesh0
     ∧ ∃ su,
         reconstruct_setup L zero3 width height imagesData
           camerasIntrinsic camerasExtrinsic out = Some su
         ∧ setup_mesh su = (prepare_mesh L (MeshInfo_new L mesh0) mesh0).2
         ∧ ∀ out',
             reconstructTexture L zero3 zero2 conf0 width height imagesData
               camerasIntrinsic camerasExtrinsic out = Some (Returns EmptyString, out') →
             ∃ tv g,
               select_views L conf (setup_mesh su) (setup_texture_views su)
                 (setup_num_faces su) (setup_graph su) = Proceeds (tv, g)
               ∧ let atlases :=
                   make_atlases L conf (setup_mesh su) (setup_mesh_info su) tv g in
                 build_model zero3 zero2 (setup_mesh su) atlases out = Some out'
                 ∧ (atlases = [] → out' = out)
                 ∧ ∀ a rest, atlases = a :: rest →
                     let pairings := corner_pairings (setup_mesh su) a in
                     length (points out') = length (get_texcoords a)
                     ∧ length (normals out') = length (get_texcoords a)
                     ∧ length (triangles out') = length (atlas_get_faces a)
                     ∧ (∀ x, (x < length (get_texcoords a))%nat →
                          ∃ p q,
                            get_vertices (setup_mesh su)
                              !! Z.to_nat (mapped_vertex pairings (Z.of_nat x)) = Some p
                            ∧ get_vertex_normals (setup_mesh su)
                              !! Z.to_nat (mapped_vertex pairings (Z.of_nat x)) = Some q
                            ∧ points out' !! x = Some p ∧ normals out' !! x = Some q)
                     ∧ (∀ m, (m < length (atlas_get_faces a))%nat →
                          ∃ t, read_ivec3 (get_texcoord_ids a) (3 * m) = Some t
                               ∧ triangles out' !! m = Some t))
  ∧ (∃ (L : TexLibrary V3 V2) conf0 width height imagesData
       camerasIntrinsic camerasExtrinsic (out out' : Buffers V3 V2),
       reconstructTexture L zero3 zero2 conf0 width height imagesData
         camerasIntrinsic camerasExtrinsic out = Some (Returns EmptyString, out')
       ∧ points out' ≠ points out
       ∧ normals out' ≠ normals out
       ∧ triangles out' ≠ triangles out).
Proof.
  split.
  - intros L conf0 width height imagesData camerasIntrinsic camerasExtrinsic out mesh0 conf.
    split; [apply mesh_of_buffers_eq|].
    destruct (reconstruct_setup_defined L zero3 width height imagesData
                camerasIntrinsic camerasExtrinsic out) as [su Hsu].
    exists su. split; [done|]. split.
    { revert Hsu. unfold reconstruct_setup.
      rewrite mesh_of_buffers_eq. cbn [mbind option_bind]. fold mesh0.
      destruct (prepare_mesh L (MeshInfo_new L mesh0) mesh0) as [mesh_info mesh].
      by intros [= <-]. }
    unfold reconstructTexture. rewrite Hsu. cbn [mbind option_bind]. fold conf.
    intros out' Hrun.
    destruct (select_views_cases L conf0 su) as [(msg & Hsel & Hmsg & _)|(tv & g & Hsel & _)];
      fold conf in Hsel; rewrite Hsel in Hrun.
    { by injection Hrun as -> _. }
    exists tv, g. split; [done|].
    destruct (build_model zero3 zero2 (setup_mesh su) _ out) as [o|] eqn:Ebm;
      cbn [mbind option_bind] in Hrun; [|done].
    injection Hrun as <-. split; [done|]. split.
    + intros Hnil. rewrite Hnil in Ebm. by injection Ebm as <-.
    + intros a rest Hcons. rewrite Hcons in Ebm.
      apply build_model_facts in Ebm as (_ & _ & _ & Hlp & Hln & Hlt & Hdata & Htris).
      split_and!; try done.
      * intros x Hx. destruct (Hdata x Hx) as (p & q & _ & ? & ? & ? & ?).
        by exists p, q.
      * intros m Hm. destruct (Htris m Hm) as (t & ? & ? & _). by exists t.
  - exists (trivial_library zero3
              [mkAtlas (mkImage 0 0 []) [0%N] [zero2; zero2; zero2] [0%N; 1%N; 2%N]]),
      (mkArguments EmptyString EmptyString EmptyString tt false false false),
      0, 0, [], [], [],
      (mkBuffers [zero3] [zero3] [] [mk_ivec3 0 0 0] 0 0 []),
      (mkBuffers [zero3; zero3; zero3] [zero3; zero3; zero3] [zero2; zero2; zero2]
         [mk_ivec3 0 1 2] 0 0 []).
    split; [reflexivity|]. cbn [points normals triangles]. split_and!; discriminate.
Qed.

End BufferReuse.

(** ** Concrete runs *)

Example build_model_quad :
  build_model 0 0 quad_mesh [seam_atlas] quad_buffers = Some quad_model.
Proof. reflexivity. Qed.

Example corner_pairings_quad :
  corner_pairings quad_mesh seam_atlas = [(0, 0); (1, 1); (2, 2); (3, 0); (4, 2); (5, 3)].
Proof. reflexivity. Qed.

(** The scenario of the specification: four faces, two views, labeling
    [1; 1; 2; 2] is accepted and copied in order; a labeling of length 3 is
    rejected and the zero labels stay. *)
Example tetrahedron_labeling :
  load_labeling 2 [1%N; 1%N; 2%N; 2%N] (Graph_new 4)
  = (LabelingDone, mkGraph [1%N; 1%N; 2%N; 2%N] [])
  ∧ load_labeling 2 [1%N; 1%N; 2%N] (Graph_new 4) = (LabelingMismatch, Graph_new 4).
Proof. split; reflexivity. Qed.

(** C1, witness: the labeling [1; 1; 2; 2] on four faces with two views. *)
Lemma labeling_accepted_iff_valid_witness :
  valid_labeling 2 [1%N; 1%N; 2%N; 2%N] (Graph_new 4)
  ∧ (load_labeling 2 [1%N; 1%N; 2%N; 2%N] (Graph_new 4)).1 = LabelingDone
  ∧ (load_labeling 2 [1%N; 3%N; 2%N; 2%N] (Graph_new 4)).1 = LabelingMismatch.
Proof.
  assert (Hv : valid_labeling 2 [1%N; 1%N; 2%N; 2%N] (Graph_new 4)).
  { split; [reflexivity|]. repeat constructor; lia. }
  split; [exact Hv|]. split.
  - exact (proj2 (proj1 (labeling_accepted_iff_valid 2 _ _)) Hv).
  - destruct (labeling_accepted_iff_valid 2 [1%N; 3%N; 2%N; 2%N] (Graph_new 4))
      as (_ & _ & _ & _ & _ & _ & Hrej).
    apply (Hrej 1%nat 3%N); [reflexivity | lia].
Defined.

(** C3, witness: the quad. *)
Lemma build_model_vertex_data_witness :
  build_model 0 0 quad_mesh [seam_atlas] quad_buffers = Some quad_model
  ∧ ∀ x, (x < 7)%nat →
      ∃ p q,
        get_vertices quad_mesh
          !! Z.to_nat (mapped_vertex (corner_pairings quad_mesh seam_atlas) (Z.of_nat x))
        = Some p
        ∧ get_vertex_normals quad_mesh
          !! Z.to_nat (mapped_vertex (corner_pairings quad_mesh seam_atlas) (Z.of_nat x))
          = Some q
        ∧ points quad_model !! x = Some p ∧ normals quad_model !! x = Some q.
Proof.
  split; [reflexivity|]. intros x Hx.
  destruct (proj1 (build_model_vertex_data 0 0) quad_mesh seam_atlas [] quad_buffers
              quad_model eq_refl) as [Hdata _].
  destruct (Hdata x Hx) as (_ & _ & Hpq). exact Hpq.
Defined.

(** C4, witness: the quad. *)
Lemma build_model_vertex_count_witness :
  build_model 0 0 quad_mesh [seam_atlas] quad_buffers = Some quad_model
  ∧ length (points quad_model) = length (normals quad_model)
  ∧ length (normals quad_model) = length (texCoords quad_model)
  ∧ length (texCoords quad_model) = length (get_texcoords seam_atlas)
  ∧ texCoords quad_model = get_texcoords seam_atlas.
Proof.
  split; [reflexivity|].
  destruct (build_model_vertex_count 0 0 quad_mesh seam_atlas [] quad_buffers
              quad_model eq_refl) as (H1 & H2 & H3 & H4 & _).
  exact (conj H1 (conj H2 (conj H3 H4))).
Defined.

(** C5, witness: the quad. *)
Lemma build_model_triangles_witness :
  build_model 0 0 quad_mesh [seam_atlas] quad_buffers = Some quad_model
  ∧ length (triangles quad_model) = length (atlas_get_faces seam_atlas)
  ∧ ∀ m t, triangles quad_model !! m = Some t →
      Forall (λ c, 0 <= c < Z.of_nat (length (points quad_model))) [c0 t; c1 t; c2 t].
Proof.
  split; [reflexivity|].
  destruct (build_model_triangles 0 0 quad_mesh seam_atlas [] quad_buffers
              quad_model eq_refl) as (H1 & _ & H3).
  exact (conj H1 H3).
Defined.

(** C6, as stated, fails: with no atlas the buffers that held the input mesh
    come back as they were, four points and two triangles. *)
Lemma empty_atlas_list_keeps_input_mesh :
  build_model 0 0 quad_mesh [] quad_buffers = Some quad_buffers
  ∧ points quad_buffers = [10; 11; 12; 13]
  ∧ triangles quad_buffers = [mk_ivec3 0 1 2; mk_ivec3 0 2 3]
  ∧ ¬ (∀ out', build_model 0 0 quad_mesh [] quad_buffers = Some out' →
         points out' = [] ∧ normals out' = [] ∧ texCoords out' = []
         ∧ triangles out' = []).
Proof.
  split; [reflexivity|]. split; [reflexivity|]. split; [reflexivity|].
  intros H. destruct (H quad_buffers eq_refl) as [Hp _]. discriminate Hp.
Qed.

(** C7, witness: the quad, with a second atlas that is ignored. *)
Lemma build_model_first_atlas_texture_witness :
  build_model 0 0 quad_mesh [seam_atlas; mkAtlas (mkImage 9 9 []) [] [] []] quad_buffers
  = Some quad_model
  ∧ textureWidth quad_model = 2 ∧ textureHeight quad_model = 1
  ∧ Z.of_nat (length (textureData quad_model)) = 2 * 1 * 3
  ∧ textureData quad_model = image_data (get_image seam_atlas).
Proof.
  split; [reflexivity|].
  destruct (build_model_first_atlas_texture 0 0 quad_mesh seam_atlas
              [mkAtlas (mkImage 9 9 []) [] [] []] quad_buffers quad_model eq_refl)
    as (H1 & H2 & H3 & _ & H5 & _).
  exact (conj H1 (conj H2 (conj H3 (H5 eq_refl)))).
Defined.

(** C10, witness: texcoord 6 of the quad's atlas is used by no corner. *)
Lemma texcoord_map_defaults_to_vertex_zero_witness :
  build_model 0 0 quad_mesh [seam_atlas] quad_buffers = Some quad_model
  ∧ (Z.of_nat 6 ∉ (corner_pairings quad_mesh seam_atlas).*1)
  ∧ ∃ p q, get_vertices quad_mesh !! 0%nat = Some p
           ∧ get_vertex_normals quad_mesh !! 0%nat = Some q
           ∧ points quad_model !! 6%nat = Some p ∧ normals quad_model !! 6%nat = Some q.
Proof.
  assert (Hunref : Z.of_nat 6 ∉ (corner_pairings quad_mesh seam_atlas).*1).
  { intros Hin. vm_compute in Hin.
    repeat (apply elem_of_cons in Hin as [Hin|Hin]; [discriminate Hin|]).
    by apply elem_of_nil in Hin. }
  split; [reflexivity|]. split; [exact Hunref|].
  apply (proj1 (texcoord_map_defaults_to_vertex_zero 0 0 quad_mesh seam_atlas []
                  quad_buffers) quad_model 6%nat eq_refl); [simpl; lia | exact Hunref].
Defined.

(** C8, witness: a labeling file whose second label exceeds the two views. *)
Lemma reconstructTexture_result_contract_witness :
  ∃ msg,
    reconstructTexture (trivial_library 0 [seam_atlas]) 0 0
      (library_conf EmptyString "labeling.vec") 0 0 [[]; []] [] [] quad_buffers
    = Some (Returns msg, quad_buffers)
    ∧ msg ≠ EmptyString.
Proof.
  destruct (reconstructTexture_result_contract (trivial_library 0 [seam_atlas]) 0 0
              (library_conf EmptyString "labeling.vec") 0 0 [[]; []] [] [] quad_buffers)
    as (su & Hsu & Hfail & _).
  apply Hfail.
  vm_compute in Hsu. injection Hsu as <-.
  apply (LabelOutOfRange _ _ _ 1%nat 5%N); [reflexivity | reflexivity | simpl; lia].
Defined.

(** C9, witness: the quad through [reconstructTexture]. *)
Lemma reconstructTexture_reuses_mesh_buffers_witness :
  reconstructTexture (trivial_library 0 [seam_atlas]) 0 0
    (library_conf EmptyString EmptyString) 0 0 [] [] [] quad_buffers
  = Some (Returns EmptyString, quad_model)
  ∧ mesh_of_buffers 0 quad_buffers = Some quad_mesh
  ∧ points quad_model ≠ points quad_buffers.
Proof.
  split; [reflexivity|]. split; [|discriminate].
  exact (proj1 (proj1 (reconstructTexture_reuses_mesh_buffers 0 0)
                  (trivial_library 0 [seam_atlas]) (library_conf EmptyString EmptyString)
                  0 0 [] [] [] quad_buffers)).
Defined.

(** * Further properties of the code *)

(** ** build_model: when it is defined and what it returns *)

Lemma read_ivec3_is_Some (src : list N) (s : nat) :
  is_Some (read_ivec3 src s) ↔ (s + 2 < length src)%nat.
Proof.
  unfold read_ivec3. split.
  - intros [t H].
    destruct (src !! s) as [a|]; cbn [mbind option_bind] in H; [|done].
    destruct (src !! (s + 1)%nat) as [b|]; cbn [mbind option_bind] in H; [|done].
    destruct (src !! (s + 2)%nat) as [c|] eqn:Ec; cbn [mbind option_bind] in H; [|done].
    by apply lookup_lt_Some in Ec.
  - intros Hlt.
    destruct (lookup_lt_is_Some_2 src s) as [a ->]; [lia|].
    destruct (lookup_lt_is_Some_2 src (s + 1)) as [b ->]; [lia|].
    destruct (lookup_lt_is_Some_2 src (s + 2)) as [c ->]; [lia|].
    by eexists.
Qed.

Lemma copy_texture_exact (image : ByteImage) (textureData0 r : list Byte.byte) :
  copy_texture image textureData0 = Some r ↔
  (INT_MIN <= width image * height image <= INT_MAX)
  ∧ (0 <= width image * height image * 3 <= INT_MAX)
  ∧ width image * height image * 3 <= Z.of_nat (length (image_data image))
  ∧ r = take (Z.to_nat (width image * height image * 3)) (image_data image).
Proof.
  unfold copy_texture, int_mul. split.
  - intros H.
    destruct (int_checked (width image * height image)) as [wh|] eqn:E1;
      cbn [mbind option_bind] in H; [|done].
    apply int_checked_Some in E1 as [-> Hwh].
    destruct (int_checked (width image * height image * 3)) as [n|] eqn:E2;
      cbn [mbind option_bind] in H; [|done].
    apply int_checked_Some in E2 as [-> Hn].
    destruct (Z.ltb_spec (width image * height image * 3) 0) as [|Hpos]; [done|].
    apply memcpy_whole in H as [Hlen ->].
    rewrite length_resize in *. split_and!; (done || lia).
  - intros (Hwh & Hn & Hdata & ->).
    rewrite (int_checked_in_range _ Hwh). cbn [mbind option_bind].
    rewrite int_checked_in_range by (unfold INT_MIN; lia). cbn [mbind option_bind].
    destruct (Z.ltb_spec (width image * height image * 3) 0) as [|_]; [lia|].
    rewrite memcpy_whole_defined by (rewrite length_resize; lia).
    by rewrite length_resize.
Qed.

Lemma set_triangle_corner_bound (ids : list N) (i j : nat) (tris r : list ivec3) :
  set_triangle_corner ids i j tris = Some r → 3 * Z.of_nat i + Z.of_nat j <= INT_MAX.
Proof.
  unfold set_triangle_corner, int_mul, int_add. intros H.
  destruct (int_checked (Z.of_nat i * 3)) as [i3|] eqn:E1;
    cbn [mbind option_bind] in H; [|done].
  apply int_checked_Some in E1 as [-> _].
  destruct (int_checked (Z.of_nat i * 3 + Z.of_nat j)) as [k|] eqn:E2;
    cbn [mbind option_bind] in H; [|done].
  apply int_checked_Some in E2 as [_ Hk]. lia.
Qed.

Lemma set_triangle_corner_defined (ids : list N) (i j : nat) (id : N) (t t' : ivec3)
    (tris : list ivec3) :
  3 * Z.of_nat i + Z.of_nat j <= INT_MAX →
  ids !! (3 * i + j)%nat = Some id →
  tris !! i = Some t →
  ivec3_set j (to_int (Z.of_N id)) t = Some t' →
  set_triangle_corner ids i j tris = Some (<[i := t']> tris).
Proof.
  intros Hb Hid Ht Hset. unfold set_triangle_corner, int_mul, int_add.
  rewrite int_checked_in_range by (unfold INT_MIN, INT_MAX in *; lia).
  cbn [mbind option_bind].
  rewrite int_checked_in_range by (unfold INT_MIN, INT_MAX in *; lia).
  cbn [mbind option_bind].
  replace (Z.to_nat (Z.of_nat i * 3 + Z.of_nat j)) with (3 * i + j)%nat by lia.
  rewrite Hid. cbn [mbind option_bind]. rewrite Ht. cbn [mbind option_bind].
  rewrite Hset. cbn [mbind option_bind].
  apply vector_set_Some. split; [by eapply lookup_lt_Some | done].
Qed.

Lemma set_triangle_corners_defined (ids : list N) (i : nat) (t : ivec3)
    (tris : list ivec3) :
  3 * Z.of_nat i + 2 <= INT_MAX →
  read_ivec3 ids (3 * i) = Some t →
  (i < length tris)%nat →
  for_range (set_triangle_corner ids i) 0 3 tris = Some (<[i := t]> tris).
Proof.
  intros Hb Hr Hi.
  apply read_ivec3_Some in Hr as (i0 & i1 & i2 & H0 & H1 & H2 & ->).
  destruct (lookup_lt_is_Some_2 tris i Hi) as [t0 Ht0].
  cbn [for_range].
  rewrite (set_triangle_corner_defined ids i 0 i0 t0
             (mk_ivec3 (to_int (Z.of_N i0)) (c1 t0) (c2 t0)));
    [|lia|by rewrite Nat.add_0_r|done|done].
  cbn [mbind option_bind].
  rewrite (set_triangle_corner_defined ids i 1 i1
             (mk_ivec3 (to_int (Z.of_N i0)) (c1 t0) (c2 t0))
             (mk_ivec3 (to_int (Z.of_N i0)) (to_int (Z.of_N i1)) (c2 t0)));
    [|lia|done|by apply list_lookup_insert_eq|done].
  cbn [mbind option_bind].
  rewrite (set_triangle_corner_defined ids i 2 i2
             (mk_ivec3 (to_int (Z.of_N i0)) (to_int (Z.of_N i1)) (c2 t0))
             (mk_ivec3 (to_int (Z.of_N i0)) (to_int (Z.of_N i1)) (to_int (Z.of_N i2))));
    [|lia|done|apply list_lookup_insert_eq; by rewrite length_insert|done].
  cbn [mbind option_bind]. by rewrite !list_insert_insert_eq.
Qed.

Lemma gather_face_bound (mf af ids : list N) (i : nat)
    (s s' : list ivec3 * list ivec3) :
  gather_face mf af ids i s = Some s' → 3 * Z.of_nat i + 2 <= INT_MAX.
Proof.
  unfold gather_face. intros H.
  destruct (af !! i) as [f|]; cbn [mbind option_bind] in H; [|done].
  destruct (read_ivec3 mf (N.to_nat (size_mul f 3))) as [v|];
    cbn [mbind option_bind] in H; [|done].
  destruct (vector_set s.1 i v) as [vidx'|]; cbn [mbind option_bind] in H; [|done].
  destruct (for_range (set_triangle_corner ids i) 0 3 s.2) as [tris'|] eqn:Et;
    cbn [mbind option_bind] in H; [|done].
  cbn [for_range] in Et.
  destruct (set_triangle_corner ids i 0 s.2) as [r0|];
    cbn [mbind option_bind] in Et; [|done].
  destruct (set_triangle_corner ids i 1 r0) as [r1|];
    cbn [mbind option_bind] in Et; [|done].
  destruct (set_triangle_corner ids i 2 r1) as [r2|] eqn:E2;
    cbn [mbind option_bind] in Et; [|done].
  apply set_triangle_corner_bound in E2. lia.
Qed.

Section FirstLoopExact.

Variables (mf af ids : list N).

Lemma gather_faces_needs (tris0 vidx tris : list ivec3) :
  gather_faces mf af ids tris0 = Some (vidx, tris) → first_loop_defined mf af ids.
Proof.
  intros H. assert (Hg := H). apply gather_faces_Some in Hg as (_ & _ & _ & Hgathered).
  unfold gather_faces in H. apply for_int_Some in H as [_ Hrun].
  split_and!.
  - apply (for_range_invariant _ (λ k _, 3 * Z.of_nat k <= INT_MAX + 1)) in Hrun;
      [done|unfold INT_MAX; lia|].
    intros k t t' _ _ Hbody. apply gather_face_bound in Hbody. lia.
  - destruct (length af) as [|m] eqn:Hn; [lia|].
    destruct (Hgathered m) as (v & t & (f & _ & _ & Hr) & _); [lia|].
    assert (Hs : is_Some (read_ivec3 ids (3 * m))) by (by eexists).
    apply read_ivec3_is_Some in Hs. lia.
  - intros m f Hf.
    destruct (Hgathered m) as (v & t & (f' & Hf' & Hr & _) & _);
      [by eapply lookup_lt_Some|].
    assert (f' = f) by congruence. subst f'.
    apply read_ivec3_is_Some. by eexists.
Qed.

Lemma gather_faces_defined (tris0 : list ivec3) :
  first_loop_defined mf af ids → is_Some (gather_faces mf af ids tris0).
Proof.
  intros (Hcount & Hids & Hoff). unfold gather_faces, for_int.
  rewrite decide_True by (unfold INT_MAX in *; lia).
  destruct (for_range_defined (gather_face mf af ids)
              (λ _ s, length s.1 = length af ∧ length s.2 = length af)
              (length af) 0
              (replicate (length af) ivec3_zero, resize (length af) ivec3_zero tris0))
    as (s' & Hs' & _); [| |by eexists].
  - cbn [fst snd]. by rewrite length_replicate, length_resize.
  - intros k [vi tr] Hk [Hl1 Hl2]. cbn [fst snd] in *.
    destruct (lookup_lt_is_Some_2 af k) as [f Hf]; [lia|].
    destruct (proj2 (read_ivec3_is_Some mf (N.to_nat (size_mul f 3)))) as [v Hv];
      [by eapply Hoff|].
    destruct (proj2 (read_ivec3_is_Some ids (3 * k))) as [t Ht]; [lia|].
    exists (<[k := v]> vi, <[k := t]> tr). cbn [fst snd].
    rewrite !length_insert. split; [|done].
    unfold gather_face. cbn [fst snd]. rewrite Hf. cbn [mbind option_bind].
    rewrite Hv. cbn [mbind option_bind].
    unfold vector_set at 1. rewrite decide_True by lia. cbn [mbind option_bind].
    rewrite (set_triangle_corners_defined ids k t tr); [done| |done|lia].
    unfold INT_MAX in *. lia.
Qed.

End FirstLoopExact.

Lemma gathered_triangles (mf af ids : list N) (tris0 vidx tris : list ivec3) :
  gather_faces mf af ids tris0 = Some (vidx, tris) →
  tris = face_triangle ids <$> seq 0 (length af).
Proof.
  intros H. apply gather_faces_Some in H as (_ & _ & Hlt & Hgathered).
  apply list_eq. intros m. rewrite list_lookup_fmap.
  destruct (decide (m < length af)%nat) as [Hm|Hm].
  - rewrite lookup_seq_lt by done. simpl.
    destruct (Hgathered m Hm) as (v & t & (f & _ & _ & Hr) & _ & ->).
    unfold face_triangle. by rewrite Hr.
  - rewrite lookup_seq_ge by lia. simpl. apply lookup_ge_None. lia.
Qed.

Lemma copied_vertex_data {V3 : Type} (zero3 : V3) (src : list V3)
    (pairings : list (Z * Z)) (n : nat) (dst r : list V3) :
  Forall (λ p, 0 <= p.1 < Z.of_nat n) pairings →
  copy_vertex_data zero3 src (foldl store (replicate n 0) pairings) n dst = Some r →
  r = mapped_datum zero3 pairings src <$> seq 0 n
  ∧ ∀ x, (x < n)%nat →
      0 <= mapped_vertex pairings (Z.of_nat x) < Z.of_nat (length src).
Proof.
  intros HF H. apply copy_vertex_data_Some in H as (_ & Hlen & Hdata). split.
  - apply list_eq. intros x. rewrite list_lookup_fmap.
    destruct (decide (x < n)%nat) as [Hx|Hx].
    + rewrite lookup_seq_lt by done. simpl.
      destruct (Hdata x Hx) as (k & p & Hk & _ & Hp & ->).
      rewrite lookup_texcoord_map in Hk by done. injection Hk as <-.
      unfold mapped_datum. by rewrite Hp.
    + rewrite lookup_seq_ge by lia. simpl. apply lookup_ge_None. lia.
  - intros x Hx. destruct (Hdata x Hx) as (k & p & Hk & Hk0 & Hp & _).
    rewrite lookup_texcoord_map in Hk by done. injection Hk as <-.
    apply lookup_lt_Some in Hp. lia.
Qed.

Section Exact.

Context {V3 V2 : Type}.
Variables (zero3 : V3) (zero2 : V2).
Implicit Types (mesh : TriangleMesh V3) (a : TextureAtlas V2) (out : Buffers V3 V2).

Lemma build_model_Some_exact mesh a rest out out' :
  build_model zero3 zero2 mesh (a :: rest) out = Some out' →
  consolidation_defined mesh a ∧ out' = consolidated_model zero3 mesh a.
Proof.
  intros H.
  apply build_model_cons_Some in H
    as (td & vidx & tris & tcvi & pts & nrm & Htd & Hg & Hm & Hp & Hn & ->).
  apply copy_texture_exact in Htd as (Harea & Hbytes & Hdata & ->).
  pose proof (gather_faces_needs _ _ _ _ _ _ Hg) as (Hcount & Hids & Hoff).
  pose proof (gathered_triangles _ _ _ _ _ _ Hg) as Htris.
  apply gather_faces_Some in Hg as (_ & _ & Hlt & Hgathered).
  assert (Hnmax : Z.of_nat (length (get_texcoords a)) <= INT_MAX)
    by (by apply copy_vertex_data_Some in Hp as (? & _)).
  apply (build_texcoord_map_Some _ _ _ _ _ Hgathered _ _ Hnmax Hlt) in Hm as [HF ->].
  apply copied_vertex_data in Hp as [-> Hvin]; [|done].
  apply copied_vertex_data in Hn as [-> Hnin]; [|done].
  split.
  - constructor; try done.
    intros x Hx. specialize (Hvin x Hx). specialize (Hnin x Hx).
    unfold corner_pairings. lia.
  - unfold consolidated_model, corner_pairings. by rewrite Htris.
Qed.

Lemma build_model_defined mesh a rest out :
  consolidation_defined mesh a → is_Some (build_model zero3 zero2 mesh (a :: rest) out).
Proof.
  intros [Harea Hbytes Hdata Hcount Hids Hoff Hnmax HF Hvin].
  unfold build_model.
  rewrite (proj2 (copy_texture_exact (get_image a) (textureData out) _)
             (conj Harea (conj Hbytes (conj Hdata eq_refl)))).
  cbn [mbind option_bind]. rewrite copy_texcoords_eq. cbn [mbind option_bind].
  destruct (gather_faces_defined (get_faces mesh) (atlas_get_faces a) (get_texcoord_ids a)
              (triangles out) (conj Hcount (conj Hids Hoff))) as [[vidx tris] Hg].
  rewrite Hg. cbn [mbind option_bind].
  apply gather_faces_Some in Hg as (Hfmax & _ & Hlt & Hgathered).
  rewrite (build_texcoord_map_defined _ _ _ _ _ Hgathered _ Hfmax Hlt HF).
  cbn [mbind option_bind].
  destruct (copy_vertex_data_defined zero3 (get_vertices mesh)
              (foldl store (replicate (length (get_texcoords a)) 0)
                 (corner_pairings_from (get_faces mesh) (get_texcoord_ids a) 0
                    (atlas_get_faces a)))
              (length (get_texcoords a)) (points out) Hnmax) as [pts ->].
  { intros x Hx. eexists. rewrite lookup_texcoord_map by done.
    split; [done|]. apply (Hvin x Hx). }
  cbn [mbind option_bind].
  destruct (copy_vertex_data_defined zero3 (get_vertex_normals mesh)
              (foldl store (replicate (length (get_texcoords a)) 0)
                 (corner_pairings_from (get_faces mesh) (get_texcoord_ids a) 0
                    (atlas_get_faces a)))
              (length (get_texcoords a)) (normals out) Hnmax) as [nrm ->].
  { intros x Hx. eexists. rewrite lookup_texcoord_map by done.
    split; [done|]. destruct (Hvin x Hx). unfold corner_pairings in *. lia. }
  cbn [mbind option_bind]. by eexists.
Qed.

(** X1.  On a non-empty atlas list [build_model] has a defined result exactly
    when the first atlas and the mesh satisfy [consolidation_defined] (no
    [int] overflow, every read and write inside its buffer), and the result
    is then the model [consolidated_model] read off the mesh and the atlas. *)
Theorem build_model_exact mesh a rest out out' :
  build_model zero3 zero2 mesh (a :: rest) out = Some out' ↔
  consolidation_defined mesh a ∧ out' = consolidated_model zero3 mesh a.
Proof.
  split; [apply build_model_Some_exact|].
  intros [Hdef ->].
  destruct (build_model_defined mesh a rest out Hdef) as [o Ho].
  rewrite Ho. f_equal. by apply build_model_Some_exact in Ho as [_ ->].
Qed.

(** X2.  On a non-empty atlas list the result of [build_model] does not
    depend on what the output buffers held before the call, nor on the
    atlases after the first: every buffer is overwritten completely. *)
Theorem build_model_ignores_previous_contents mesh a rest rest' out1 out2 :
  build_model zero3 zero2 mesh (a :: rest) out1
  = build_model zero3 zero2 mesh (a :: rest') out2.
Proof.
  destruct (build_model zero3 zero2 mesh (a :: rest) out1) as [o1|] eqn:E1.
  - apply build_model_Some_exact in E1 as [Hdef ->].
    destruct (build_model_defined mesh a rest' out2 Hdef) as [o2 Ho2].
    rewrite Ho2. by apply build_model_Some_exact in Ho2 as [_ ->].
  - destruct (build_model zero3 zero2 mesh (a :: rest') out2) as [o2|] eqn:E2; [|done].
    apply build_model_Some_exact in E2 as [Hdef _].
    destruct (build_model_defined mesh a rest out1 Hdef) as [o1 Ho1]. congruence.
Qed.

End Exact.

(** ** build_model: geometry of the output *)

Section Geometry.

Context {V3 V2 : Type}.
Variables (zero3 : V3) (zero2 : V2).
Implicit Types (mesh : TriangleMesh V3) (a : TextureAtlas V2) (out : Buffers V3 V2).

(** In a defined run, face [m] of the atlas has its three texcoord indices
    in [triangles[m]], its three vertex indices in the mesh, and their
    pairings in the pairing list. *)
Lemma build_model_face_pairings mesh a rest out out' (m : nat) (f : N) :
  build_model zero3 zero2 mesh (a :: rest) out = Some out' →
  atlas_get_faces a !! m = Some f →
  ∃ tri v,
    read_ivec3 (get_texcoord_ids a) (3 * m) = Some tri
    ∧ read_ivec3 (get_faces mesh) (N.to_nat (size_mul f 3)) = Some v
    ∧ triangles out' !! m = Some tri
    ∧ [(c0 tri, c0 v); (c1 tri, c1 v); (c2 tri, c2 v)] ⊆ corner_pairings mesh a.
Proof.
  intros H Hf.
  apply build_model_cons_Some in H
    as (td & vidx & tris & tcvi & pts & nrm & _ & Hg & _ & _ & _ & ->).
  apply gather_faces_Some in Hg as (_ & _ & _ & Hgathered).
  assert (Hm : (m < length (atlas_get_faces a))%nat) by (by eapply lookup_lt_Some).
  destruct (Hgathered m Hm) as (v & tri & Hfd & Hv & Ht).
  exists tri, v. assert (Hfd' := Hfd). destruct Hfd' as (f' & Hf' & Hrv & Hrt).
  assert (f' = f) by congruence. subst f'. split_and!; try done.
  unfold corner_pairings.
  change (atlas_get_faces a) with (drop 0 (atlas_get_faces a)) at 1.
  by apply (corner_pairings_from_elem _ _ _ tris vidx Hgathered m 0 m v tri).
Qed.

Lemma mapped_vertex_functional (pairings : list (Z * Z)) (t v : Z) :
  (∀ t0 v1 v2, (t0, v1) ∈ pairings → (t0, v2) ∈ pairings → v1 = v2) →
  (t, v) ∈ pairings → mapped_vertex pairings t = v.
Proof.
  intros Hfun Hin.
  destruct (mapped_vertex_cases pairings t) as [[Hnot _]|Hin'].
  - destruct Hnot. apply list_elem_of_fmap. by exists (t, v).
  - by apply (Hfun t).
Qed.


(** X4.  When no texcoord index is paired with two different vertex indices,
    the output reproduces the geometry: the three entries of output triangle
    [m] select the positions and normals of the three vertices of the mesh
    face that atlas face [m] names. *)
Theorem build_model_preserves_face_geometry mesh a rest out out' (m : nat) (f : N) :
  build_model zero3 zero2 mesh (a :: rest) out = Some out' →
  (∀ t v1 v2, (t, v1) ∈ corner_pairings mesh a → (t, v2) ∈ corner_pairings mesh a →
     v1 = v2) →
  atlas_get_faces a !! m = Some f →
  ∃ tri v,
    triangles out' !! m = Some tri
    ∧ read_ivec3 (get_faces mesh) (N.to_nat (size_mul f 3)) = Some v
    ∧ Forall2 (λ c k,
         0 <= c ∧ 0 <= k
         ∧ is_Some (get_vertices mesh !! Z.to_nat k)
         ∧ points out' !! Z.to_nat c = get_vertices mesh !! Z.to_nat k
         ∧ normals out' !! Z.to_nat c = get_vertex_normals mesh !! Z.to_nat k)
        [c0 tri; c1 tri; c2 tri] [c0 v; c1 v; c2 v].
Proof.
  intros H Hfun Hf.
  destruct (build_model_face_pairings mesh a rest out out' m f H Hf)
    as (tri & v & _ & Hrv & Htri & Hsub).
  exists tri, v. split; [done|]. split; [done|].
  apply build_model_facts in H as (_ & HF & _ & _ & _ & _ & Hdata & _).
  rewrite Forall_forall in HF.
  assert (Hcorner : ∀ c k, (c, k) ∈ corner_pairings mesh a →
            0 <= c ∧ 0 <= k
            ∧ is_Some (get_vertices mesh !! Z.to_nat k)
            ∧ points out' !! Z.to_nat c = get_vertices mesh !! Z.to_nat k
            ∧ normals out' !! Z.to_nat c = get_vertex_normals mesh !! Z.to_nat k).
  { intros c k Hin. pose proof (HF _ Hin) as Hc. cbn [fst] in Hc.
    destruct (Hdata (Z.to_nat c)) as (p & q & Hk0 & Hp & Hq & -> & ->); [lia|].
    rewrite Z2Nat.id in Hk0, Hp, Hq by lia.
    rewrite (mapped_vertex_functional _ c k Hfun Hin) in Hk0, Hp, Hq.
    rewrite Hp, Hq. split_and!; try done; try lia. }
  apply Forall2_cons. split.
  { apply Hcorner, Hsub, list_elem_of_here. }
  apply Forall2_cons. split.
  { apply Hcorner, Hsub, list_elem_of_further, list_elem_of_here. }
  apply Forall2_cons. split; [|by constructor].
  apply Hcorner, Hsub. do 2 apply list_elem_of_further. apply list_elem_of_here.
Qed.

End Geometry.

(** ** The labeling: copy, write-out and reload *)

Lemma extract_labeling_eq (g : Graph) : extract_labeling g = Some (labels g).
Proof.
  unfold extract_labeling, num_nodes, get_label.
  destruct (for_range_defined
              (λ i labeling, label ← labels g !! i; vector_set labeling i label)
              (λ k lab, length lab = length (labels g)
                        ∧ ∀ m, (m < k)%nat → lab !! m = labels g !! m)
              (length (labels g)) 0 (replicate (length (labels g)) 0%N))
    as (r & -> & Hlen & Hr).
  - split; [by rewrite length_replicate|]. intros m Hm. lia.
  - intros k lab Hk [Hlen Hprev].
    destruct (lookup_lt_is_Some_2 (labels g) k) as [l Hl]; [lia|].
    exists (<[k := l]> lab). rewrite Hl. cbn [mbind option_bind].
    split; [apply vector_set_Some; split; [lia|done]|].
    rewrite length_insert. split; [done|].
    intros m Hm. destruct (decide (m = k)) as [->|Hne].
    + rewrite list_lookup_insert_eq by lia. done.
    + rewrite list_lookup_insert_ne by done. apply Hprev. lia.
  - f_equal. apply list_eq. intros m.
    destruct (decide (m < length (labels g))%nat) as [Hm|Hm].
    + apply Hr. lia.
    + rewrite !lookup_ge_None_2 by lia. done.
Qed.

(** X5.  An accepted labeling is copied into the graph entry by entry, in
    order: afterwards node [i] carries entry [i], whatever labels the graph
    had before, and the adjacency is untouched. *)
Theorem load_labeling_copies_in_order (K : N) (L : list N) (g : Graph) :
  valid_labeling K L g →
  load_labeling K L g = (LabelingDone, mkGraph L (edges g))
  ∧ (∀ i, get_label (load_labeling K L g).2 i = L !! i)
  ∧ num_nodes (load_labeling K L g).2 = num_nodes g.
Proof.
  intros Hv. rewrite (load_labeling_done K L g Hv). split; [done|].
  split; [done|]. exact (proj1 Hv).
Qed.

(** X6.  The labeling that the write-out loop takes from a graph is the list
    of its labels; loading it into a graph with as many nodes reproduces
    those labels, provided none exceeds the number of views.  Conversely,
    writing out a graph into which a labeling was just loaded gives that
    labeling back. *)
Theorem labeling_write_reload_round_trip (K : N) :
  (∀ g g0, num_nodes g0 = num_nodes g → Forall (λ l, (l <= K)%N) (labels g) →
     ∃ L, extract_labeling g = Some L
          ∧ load_labeling K L g0 = (LabelingDone, mkGraph (labels g) (edges g0)))
  ∧ (∀ L g0, valid_labeling K L g0 →
       extract_labeling (load_labeling K L g0).2 = Some L).
Proof.
  split.
  - intros g g0 Hn HF. exists (labels g). split; [apply extract_labeling_eq|].
    apply load_labeling_done. split; [by rewrite Hn|done].
  - intros L g0 Hv. rewrite extract_labeling_eq.
    by rewrite (load_labeling_done K L g0 Hv).
Qed.

(** ** The caller's triangles inside the internal mesh *)

Lemma to_int_to_uint (c : Z) : INT_MIN <= c <= INT_MAX → to_int (Z.of_N (to_uint c)) = c.
Proof.
  unfold to_int, to_uint, INT_MIN, INT_MAX. intros Hc.
  pose proof (Z.mod_pos_bound c (2 ^ 32) eq_refl) as Hm.
  rewrite Z2N.id by lia.
  rewrite Zplus_mod_idemp_l. rewrite Z.mod_small; lia.
Qed.

Lemma lookup_flat_map_triple {A B : Type} (f0 f1 f2 : A → B) (l : list A) :
  ∀ m t, l !! m = Some t →
    flat_map (λ t, [f0 t; f1 t; f2 t]) l !! (3 * m)%nat = Some (f0 t)
    ∧ flat_map (λ t, [f0 t; f1 t; f2 t]) l !! (3 * m + 1)%nat = Some (f1 t)
    ∧ flat_map (λ t, [f0 t; f1 t; f2 t]) l !! (3 * m + 2)%nat = Some (f2 t).
Proof.
  induction l as [|x l IH]; intros m t Hm; [done|].
  destruct m as [|m].
  - injection Hm as ->. done.
  - replace (3 * S m)%nat with (S (S (S (3 * m)))) by lia.
    cbn [flat_map app lookup list_lookup Nat.add]. by apply IH.
Qed.

Lemma length_flat_map_triple {A B : Type} (f0 f1 f2 : A → B) (l : list A) :
  length (flat_map (λ t, [f0 t; f1 t; f2 t]) l) = (3 * length l)%nat.
Proof. induction l as [|x l IH]; simpl; [done|]. rewrite IH. lia. Qed.

(** X7.  The internal mesh that [reconstructTexture] builds from the
    caller's buffers has the caller's points and normals as vertices and
    normals and three face indices per triangle; reading face [m] back the
    way [build_model] reads faces returns triangle [m] itself (the passage
    through [unsigned int] is undone). *)
Theorem mesh_of_buffers_round_trip {V3 V2 : Type} (zero3 : V3) (out : Buffers V3 V2) :
  ∃ mesh0,
    mesh_of_buffers zero3 out = Some mesh0
    ∧ get_vertices mesh0 = points out
    ∧ get_vertex_normals mesh0 = normals out
    ∧ length (get_faces mesh0) = (3 * length (triangles out))%nat
    ∧ ∀ m t, triangles out !! m = Some t →
        (INT_MIN <= c0 t <= INT_MAX) → (INT_MIN <= c1 t <= INT_MAX) →
        (INT_MIN <= c2 t <= INT_MAX) →
        read_ivec3 (get_faces mesh0) (3 * m) = Some t.
Proof.
  eexists. split; [apply mesh_of_buffers_eq|]. cbn [get_vertices get_vertex_normals get_faces].
  split; [done|]. split; [done|]. split; [apply length_flat_map_triple|].
  intros m t Hm R0 R1 R2.
  destruct (lookup_flat_map_triple (λ t, to_uint (c0 t)) (λ t, to_uint (c1 t))
              (λ t, to_uint (c2 t)) (triangles out) m t Hm) as (H0 & H1 & H2).
  unfold read_ivec3. rewrite H0, H1, H2. cbn [mbind option_bind].
  rewrite !to_int_to_uint by done. by destruct t.
Qed.

(** ** The view selection paths of reconstructTexture *)

(** X8.  With a labeling file whose contents are valid for the graph,
    [reconstructTexture] takes neither the data costs nor the optimiser into
    account: the views are passed on as they are and the graph's labels are
    the file's entries in order. *)
Theorem select_views_labeling_override {V3 V2 : Type} (L : TexLibrary V3 V2)
    (conf : Arguments (Settings L)) (mesh : TriangleMesh V3)
    (texture_views : list (TextureView L)) (num_faces : nat) (graph : Graph) :
  string_empty (labeling_file conf) = false →
  valid_labeling (N.of_nat (length texture_views))
    (vector_from_file L (labeling_file conf)) graph →
  select_views L conf mesh texture_views num_faces graph
  = Proceeds (texture_views, mkGraph (vector_from_file L (labeling_file conf)) (edges graph)).
Proof.
  intros Hfile Hv. unfold select_views, reconstructTexture_load_labeling.
  rewrite Hfile. by rewrite (load_labeling_done _ _ _ Hv).
Qed.

Lemma select_views_cases_labeling {V3 V2 : Type} {L : TexLibrary V3 V2}
    (a : Arguments (Settings L)) (su : Setup L) :
  string_empty (labeling_file a) = false →
  (Failure L a su
   ∧ main_load_labeling (N.of_nat (length (setup_texture_views su)))
       (vector_from_file L (labeling_file a)) (setup_graph su) = Exits EXIT_FAILURE)
  ∨ (¬ Failure L a su
     ∧ ∃ g, main_load_labeling (N.of_nat (length (setup_texture_views su)))
              (vector_from_file L (labeling_file a)) (setup_graph su) = Proceeds g).
Proof.
  intros El. unfold main_load_labeling.
  destruct (load_labeling _ _ _) as [[|] g'] eqn:Eload.
  - right. split; [|by eexists].
    assert (Hv : valid_labeling (N.of_nat (length (setup_texture_views su)))
                   (vector_from_file L (labeling_file a)) (setup_graph su)).
    { apply load_labeling_done_iff. by rewrite Eload. }
    destruct Hv as [Hlen HF].
    intros [what Hl _ _| _ Hne | i l _ Hi Hlt]; [congruence|done|].
    rewrite Forall_lookup in HF. specialize (HF i l Hi). simpl in HF. lia.
  - left. split; [|done].
    assert (Hnv : ¬ valid_labeling (N.of_nat (length (setup_texture_views su)))
                    (vector_from_file L (labeling_file a)) (setup_graph su)).
    { intros Hv. apply load_labeling_done_iff in Hv. by rewrite Eload in Hv. }
    destruct (decide (length (vector_from_file L (labeling_file a))
                      = num_nodes (setup_graph su))) as [Hlen|Hlen].
    + destruct (decide (Forall (λ l, (l <= N.of_nat (length (setup_texture_views su)))%N)
                          (vector_from_file L (labeling_file a)))) as [HF|HF].
      { destruct Hnv. by split. }
      apply not_Forall_Exists, Exists_exists in HF; [|apply _].
      destruct HF as (l & Hin & Hl). apply list_elem_of_lookup in Hin as [i Hi].
      apply (LabelOutOfRange L a su i l); [done|done|]. simpl in Hl. lia.
    + by apply LabelingLengthMismatch.
Qed.

(** ** main *)

Section Main.

Context {V3 V2 : Type} {L : TexLibrary V3 V2}.
Variable E : CliEnvironment L.
Implicit Types (conf : CommandLine (Settings L)) (su : Setup L).

Lemma main_select_views_cases (a : Arguments (Settings L)) su :
  (Failure L a su
   ∧ main_select_views (Model E) a su = Some (Exits EXIT_FAILURE, []))
  ∨ (¬ Failure L a su
     ∧ ∃ tv g written,
         main_select_views (Model E) a su = Some (Proceeds (tv, g), written)
         ∧ Forall (intermediate_writes (string_empty (labeling_file a))
                     (string_empty (data_cost_file a))
                     (write_intermediate_results a) (labels g)) written).
Proof.
  unfold main_select_views.
  destruct (string_empty (labeling_file a)) eqn:El.
  - destruct (string_empty (data_cost_file a)) eqn:Ed.
    + right. split; [intros [what ? Hd _| Hl _ | i l Hl _ _]; congruence|].
      destruct (calculate_data_costs L _ _ _ _) as [tv dc]. cbn [snd].
      destruct (write_intermediate_results a) eqn:Ew.
      * rewrite extract_labeling_eq. cbn [mbind option_bind].
        do 3 eexists. split; [done|].
        apply Forall_cons. split; [done|]. apply Forall_cons. split; [done|].
        by constructor.
      * do 3 eexists. split; [done|]. by constructor.
    + destruct (DataCosts_load_from_file L _ _) as [what|dc] eqn:Eload.
      * left. split; [|done]. by apply (CostFileLoadFailure L a su what).
      * right. split; [intros [what ? Hd Hload| Hl _ | i l Hl _ _]; congruence|].
        destruct (write_intermediate_results a) eqn:Ew.
        -- rewrite extract_labeling_eq. cbn [mbind option_bind].
           do 3 eexists. split; [done|].
           apply Forall_cons. split; [done|]. by constructor.
        -- do 3 eexists. split; [done|]. by constructor.
  - destruct (select_views_cases_labeling a su El) as [[Hf Hm]|(Hnf & g & Hm)];
      rewrite Hm.
    + left. by split.
    + right. split; [done|]. do 3 eexists. split; [done|]. by constructor.
Qed.

Lemma main_deliver_shape (a : Arguments (Settings L)) su tv g :
  (∃ m rest, main_deliver E a su tv g = SaveModel (out_prefix a) m :: rest)
  ∧ Forall delivery_write (main_deliver E a su tv g).
Proof.
  unfold main_deliver.
  destruct (main_make_atlases L a _ _ tv g) as [tv' atlases].
  split; [by do 2 eexists|].
  apply Forall_cons. split; [done|]. apply Forall_app. split.
  - destruct (write_timings a); repeat constructor.
  - destruct (write_view_selection_model a); [|by constructor].
    destruct (generate_texture_patches L _ _ _ _ _) as [[? ?] ?].
    repeat constructor.
Qed.

(** X9.  The exits of [main].  A command line that does not parse, a missing
    destination directory and a mesh that does not load end [main] with
    [EXIT_FAILURE] before any file is written.  A cost file that does not
    load and a rejected labeling end it with [EXIT_FAILURE] when the [.conf]
    file, and nothing else, has been written. *)
Theorem main_failure_exits (argv : list string) :
  (∀ what, parse_args E argv = inl what → main E argv = Some (EXIT_FAILURE, []))
  ∧ (∀ conf, parse_args E argv = inr conf →
       fs_dir_exists E (fs_dirname E (out_prefix (parsed conf))) = false →
       main E argv = Some (EXIT_FAILURE, []))
  ∧ (∀ conf what, parse_args E argv = inr conf →
       load_ply_mesh E (in_mesh conf) = inl what →
       main E argv = Some (EXIT_FAILURE, []))
  ∧ (∀ conf su, main_setup E argv = Proceeds (conf, su) →
       Failure L (parsed conf) su →
       main E argv
       = Some (EXIT_FAILURE,
               [WriteString (out_prefix (parsed conf) ++ ".conf")%string
                  (Arguments_to_string E conf)])).
Proof.
  unfold main. split_and!.
  - intros what Hp. unfold main_setup. by rewrite Hp.
  - intros conf Hp Hd. unfold main_setup. by rewrite Hp, Hd.
  - intros conf what Hp Hl. unfold main_setup. rewrite Hp, Hl.
    by destruct (negb _).
  - intros conf su -> Hfail.
    destruct (main_select_views_cases (parsed conf) su) as [[_ ->]|[Hok _]]; done.
Qed.

(** X10.  [main] always ends with [EXIT_SUCCESS] or [EXIT_FAILURE]; it ends
    with [EXIT_SUCCESS] exactly when the set-up went through and no failure
    occurred, and exactly then a model has been saved, the first one under
    the output prefix. *)
Theorem main_exit_status (argv : list string) :
  ∃ status written,
    main E argv = Some (status, written)
    ∧ (status = EXIT_SUCCESS ∨ status = EXIT_FAILURE)
    ∧ (status = EXIT_SUCCESS ↔
       ∃ conf su, main_setup E argv = Proceeds (conf, su) ∧ ¬ Failure L (parsed conf) su)
    ∧ (status = EXIT_SUCCESS ↔ ∃ prefix m, SaveModel prefix m ∈ written)
    ∧ (∀ conf su, main_setup E argv = Proceeds (conf, su) → status = EXIT_SUCCESS →
         ∃ before m after,
           written = before ++ SaveModel (out_prefix (parsed conf)) m :: after
           ∧ ∀ prefix m', SaveModel prefix m' ∉ before).
Proof.
  unfold main.
  destruct (main_setup E argv) as [[conf su]|status|msg] eqn:Esetup.
  - destruct (main_select_views_cases (parsed conf) su)
      as [[Hfail ->]|(Hok & tv & g & wr & -> & Hwr)]; cbn [mbind option_bind].
    + do 2 eexists. split; [done|]. split; [by right|]. split_and!.
      * split; [done|]. intros (c & s0 & [= <- <-] & Hnf). done.
      * split; [done|]. intros (prefix & m & Hin).
        apply list_elem_of_singleton in Hin. discriminate.
      * done.
    + do 2 eexists. split; [done|]. split; [by left|].
      destruct (main_deliver_shape (parsed conf) su tv g) as [(m & rest & Hd) Hshape].
      split_and!.
      * split; [|done]. intros _. by exists conf, su.
      * split; [|done]. intros _. exists (out_prefix (parsed conf)), m.
        rewrite Hd. apply list_elem_of_further, elem_of_app. right. apply list_elem_of_here.
      * intros c s0 [= <- <-] _. rewrite Hd.
        exists (WriteString (out_prefix (parsed conf) ++ ".conf")%string
                  (Arguments_to_string E conf) :: wr), m, rest.
        split; [done|]. intros prefix m' Hin.
        apply elem_of_cons in Hin as [Hin|Hin]; [discriminate|].
        rewrite Forall_forall in Hwr. by apply Hwr in Hin.
  - assert (status = EXIT_FAILURE) as ->.
    { revert Esetup. unfold main_setup.
      destruct (parse_args E argv) as [|c]; [by intros [= <-]|].
      destruct (negb _); [by intros [= <-]|].
      destruct (load_ply_mesh E _); [by intros [= <-]|].
      by destruct (prepare_mesh L _ _). }
    do 2 eexists. split; [done|]. split; [by right|]. split_and!.
    + split; [done|]. by intros (c & s0 & ? & _).
    + split; [done|]. intros (prefix & m & Hin). by apply elem_of_nil in Hin.
    + done.
  - exfalso. revert Esetup. unfold main_setup.
    destruct (parse_args E argv) as [|c]; [done|].
    destruct (negb _); [done|].
    destruct (load_ply_mesh E _); [done|].
    by destruct (prepare_mesh L _ _).
Qed.

(** X11.  The intermediate files of [main].  A data-cost file is written only
    when the costs were computed in this run (no labeling file, no cost file
    given) and intermediate results were asked for; a labeling file is
    written only without a labeling file given and on request, and it holds
    the labels of the graph from which the patches are then generated.  A run
    that loads its labeling writes neither. *)
Theorem main_intermediate_files (argv : list string) conf su status written :
  main_setup E argv = Proceeds (conf, su) →
  main E argv = Some (status, written) →
  (∀ path dc, SaveDataCosts path dc ∈ written →
     string_empty (labeling_file (parsed conf)) = true
     ∧ string_empty (data_cost_file (parsed conf)) = true
     ∧ write_intermediate_results (parsed conf) = true)
  ∧ (∀ path labeling, WriteVector path labeling ∈ written →
       string_empty (labeling_file (parsed conf)) = true
       ∧ write_intermediate_results (parsed conf) = true
       ∧ ∃ tv g wr,
           main_select_views (Model E) (parsed conf) su = Some (Proceeds (tv, g), wr)
           ∧ labeling = labels g)
  ∧ (string_empty (labeling_file (parsed conf)) = false →
     Forall (λ w, match w with
                  | SaveDataCosts _ _ | WriteVector _ _ => False
                  | _ => True
                  end) written).
Proof.
  unfold main. intros ->.
  destruct (main_select_views_cases (parsed conf) su)
    as [[Hfail Hsel]|(Hok & tv & g & wr & Hsel & Hwr)];
    rewrite Hsel; cbn [mbind option_bind]; intros [= <- <-].
  - split_and!.
    + intros path dc Hin. apply list_elem_of_singleton in Hin. discriminate.
    + intros path l Hin. apply list_elem_of_singleton in Hin. discriminate.
    + intros _. by repeat constructor.
  - pose proof (proj2 (main_deliver_shape (parsed conf) su tv g)) as Hdel.
    rewrite Forall_forall in Hwr, Hdel.
    assert (Hcases : ∀ w, w ∈ WriteString (out_prefix (parsed conf) ++ ".conf")%string
                                (Arguments_to_string E conf)
                              :: wr ++ main_deliver E (parsed conf) su tv g →
              (∃ p c, w = WriteString p c)
              ∨ intermediate_writes (string_empty (labeling_file (parsed conf)))
                  (string_empty (data_cost_file (parsed conf)))
                  (write_intermediate_results (parsed conf)) (labels g) w
              ∨ delivery_write w).
    { intros w Hin. apply elem_of_cons in Hin as [->|Hin]; [left; by do 2 eexists|].
      apply elem_of_app in Hin as [Hin|Hin]; [right; left; by apply Hwr|].
      right; right; by apply Hdel. }
    split_and!.
    + intros path dc Hin. destruct (Hcases _ Hin) as [(p0 & c & ?)|[Hi|Hd]]; done.
    + intros path l Hin.
      destruct (Hcases _ Hin) as [(p0 & c & ?)|[(? & ? & ->)|Hd]]; [done| |done].
      split_and!; try done. by exists tv, g, wr.
    + intros Hfile. apply Forall_forall. intros w Hin.
      destruct (Hcases _ Hin) as [(p0 & c & ->)|[Hi|Hd]]; [done| |].
      * destruct w; try done; simpl in Hi; destruct Hi as [? _]; congruence.
      * by destruct w.
Qed.

End Main.

(** ** The two entry points *)

Section EntryPoints.

Context {V3 V2 : Type}.
Variables (L : TexLibrary V3 V2) (M : Type).

(** X12.  [main] and [reconstructTexture] resolve the labeling in the same
    way: on the same configuration and set-up they pass on the same views
    and the same labelled graph, [main] exits with [EXIT_FAILURE] exactly
    where [reconstructTexture] returns a message, and both build the same
    atlases from a labelled graph. *)
Theorem entry_points_agree (a : Arguments (Settings L)) (su : Setup L) :
  (∀ tv g,
     select_views L a (setup_mesh su) (setup_texture_views su)
       (setup_num_faces su) (setup_graph su) = Proceeds (tv, g)
     ↔ ∃ written, main_select_views M a su = Some (Proceeds (tv, g), written))
  ∧ ((∃ msg, select_views L a (setup_mesh su) (setup_texture_views su)
               (setup_num_faces su) (setup_graph su) = Returns msg)
     ↔ main_select_views M a su = Some (Exits EXIT_FAILURE, []))
  ∧ (∀ mesh mesh_info tv g,
       (main_make_atlases L a mesh mesh_info tv g).2
       = make_atlases L a mesh mesh_info tv g).
Proof.
  split_and!.
  - intros tv g. unfold select_views, main_select_views,
      reconstructTexture_load_labeling, main_load_labeling.
    destruct (string_empty (labeling_file a)).
    + destruct (string_empty (data_cost_file a)).
      * destruct (calculate_data_costs L _ _ _ _) as [tv' dc]. cbn [snd].
        destruct (write_intermediate_results a).
        -- rewrite extract_labeling_eq. cbn [mbind option_bind].
           split; [intros [= <- <-]; by eexists | by intros [wr [= <- <-]]].
        -- split; [intros [= <- <-]; by eexists | by intros [wr [= <- <-]]].
      * destruct (DataCosts_load_from_file L _ _) as [what|dc].
        -- split; [done | by intros [wr ?]].
        -- destruct (write_intermediate_results a).
           ++ rewrite extract_labeling_eq. cbn [mbind option_bind].
              split; [intros [= <- <-]; by eexists | by intros [wr [= <- <-]]].
           ++ split; [intros [= <- <-]; by eexists | by intros [wr [= <- <-]]].
    + destruct (load_labeling _ _ _) as [[|] g'].
      * split; [intros [= <- <-]; by eexists | by intros [wr [= <- <-]]].
      * split; [done | by intros [wr ?]].
  - unfold select_views, main_select_views,
      reconstructTexture_load_labeling, main_load_labeling.
    destruct (string_empty (labeling_file a)).
    + destruct (string_empty (data_cost_file a)).
      * destruct (calculate_data_costs L _ _ _ _) as [tv' dc]. cbn [snd].
        destruct (write_intermediate_results a).
        -- rewrite extract_labeling_eq. cbn [mbind option_bind].
           split; [by intros [msg ?] | done].
        -- split; [by intros [msg ?] | done].
      * destruct (DataCosts_load_from_file L _ _) as [what|dc].
        -- split; [done | intros _; by eexists].
        -- destruct (write_intermediate_results a).
           ++ rewrite extract_labeling_eq. cbn [mbind option_bind].
              split; [by intros [msg ?] | done].
           ++ split; [by intros [msg ?] | done].
    + destruct (load_labeling _ _ _) as [[|] g'].
      * split; [by intros [msg ?] | done].
      * split; [done | intros _; by eexists].
  - intros mesh mesh_info tv g. unfold main_make_atlases, make_atlases.
    by destruct (generate_texture_patches L _ _ _ _ _) as [[? ?] ?].
Qed.

End EntryPoints.

Section LibraryMode.

Context {V3 V2 : Type}.
Variables (L : TexLibrary V3 V2) (zero3 : V3) (zero2 : V2).
Variables (conf0 : Arguments (Settings L)) (width height : Z).
Variables (imagesData : list (list Byte.byte)).
Variables (camerasIntrinsic camerasExtrinsic : list (list (Float L))).
Variable out : Buffers V3 V2.

(** X13.  When view selection goes through, [reconstructTexture] has a
    result exactly in two cases, and the result is a success: no atlas was
    packed, and the buffers are returned as they were passed in; or the first
    atlas satisfies [consolidation_defined] with the prepared mesh, and the
    buffers hold [consolidated_model] of that mesh and atlas. *)
Theorem reconstructTexture_success_exact (su : Setup L)
    (tv : list (TextureView L)) (g : Graph) (r : Outcome unit) (out' : Buffers V3 V2) :
  reconstruct_setup L zero3 width height imagesData camerasIntrinsic camerasExtrinsic out
  = Some su →
  select_views L (reconstruct_conf conf0) (setup_mesh su) (setup_texture_views su)
    (setup_num_faces su) (setup_graph su) = Proceeds (tv, g) →
  let atlases :=
    make_atlases L (reconstruct_conf conf0) (setup_mesh su) (setup_mesh_info su) tv g in
  reconstructTexture L zero3 zero2 conf0 width height imagesData
    camerasIntrinsic camerasExtrinsic out = Some (r, out')
  ↔ r = Returns EmptyString
    ∧ ((atlases = [] ∧ out' = out)
       ∨ ∃ a rest, atlases = a :: rest
                   ∧ consolidation_defined (setup_mesh su) a
                   ∧ out' = consolidated_model zero3 (setup_mesh su) a).
Proof.
  intros Hsu Hsel atlases. unfold reconstructTexture.
  rewrite Hsu. cbn [mbind option_bind]. rewrite Hsel. fold atlases.
  destruct atlases as [|a rest].
  - cbn [build_model mbind option_bind]. split.
    + intros [= <- <-]. split; [done|]. by left.
    + intros [-> [[_ ->]|(a & rest & ? & _)]]; done.
  - split.
    + intros H.
      destruct (build_model zero3 zero2 (setup_mesh su) (a :: rest) out) as [o|] eqn:Ebm;
        cbn [mbind option_bind] in H; [|done].
      injection H as <- <-. split; [done|]. right. exists a, rest.
      apply build_model_Some_exact in Ebm as [Hdef ->]. done.
    + intros [-> [[? _]|(a' & rest' & [= <- <-] & Hdef & ->)]]; [done|].
      destruct (build_model_defined zero3 zero2 (setup_mesh su) a rest out Hdef)
        as [o Ho].
      rewrite Ho. cbn [mbind option_bind].
      by apply build_model_Some_exact in Ho as [_ ->].
Qed.

End LibraryMode.

(** ** Concrete runs of the further properties *)

(** X1, witness: the quad satisfies the conditions and its model is the
    closed form. *)
Lemma build_model_exact_witness :
  consolidation_defined quad_mesh seam_atlas
  ∧ quad_model = consolidated_model 0 quad_mesh seam_atlas.
Proof.
  apply (proj1 (build_model_exact 0 0 quad_mesh seam_atlas [] quad_buffers quad_model)).
  reflexivity.
Defined.


(** X4, witness: the second face of the quad. *)
Lemma build_model_preserves_face_geometry_witness :
  ∃ tri v,
    triangles quad_model !! 1%nat = Some tri
    ∧ read_ivec3 (get_faces quad_mesh) (N.to_nat (size_mul 1 3)) = Some v
    ∧ Forall2 (λ c k,
         0 <= c ∧ 0 <= k
         ∧ is_Some (get_vertices quad_mesh !! Z.to_nat k)
         ∧ points quad_model !! Z.to_nat c = get_vertices quad_mesh !! Z.to_nat k
         ∧ normals quad_model !! Z.to_nat c = get_vertex_normals quad_mesh !! Z.to_nat k)
        [c0 tri; c1 tri; c2 tri] [c0 v; c1 v; c2 v].
Proof.
  apply (build_model_preserves_face_geometry 0 0 quad_mesh seam_atlas [] quad_buffers
           quad_model 1%nat 1%N eq_refl); [|reflexivity].
  intros t v1 v2 H1 H2. vm_compute in H1, H2.
  repeat (apply elem_of_cons in H1 as [H1|H1];
          [injection H1 as -> ->;
           repeat (apply elem_of_cons in H2 as [H2|H2]; [by inversion H2|]);
           by apply elem_of_nil in H2|]).
  by apply elem_of_nil in H1.
Defined.

(** X5, witness: four faces, two views, labeling [1; 1; 2; 2]. *)
Lemma load_labeling_copies_in_order_witness :
  load_labeling 2 [1%N; 1%N; 2%N; 2%N] (Graph_new 4)
  = (LabelingDone, mkGraph [1%N; 1%N; 2%N; 2%N] (edges (Graph_new 4))).
Proof.
  apply (load_labeling_copies_in_order 2 [1%N; 1%N; 2%N; 2%N] (Graph_new 4)).
  split; [reflexivity|]. repeat constructor; lia.
Defined.

(** X6, witness: a graph labelled [1; 2] written out and loaded into a
    fresh two-node graph. *)
Lemma labeling_write_reload_round_trip_witness :
  ∃ L, extract_labeling (mkGraph [1%N; 2%N] []) = Some L
       ∧ load_labeling 2 L (Graph_new 2)
         = (LabelingDone, mkGraph [1%N; 2%N] (edges (Graph_new 2))).
Proof.
  apply (proj1 (labeling_write_reload_round_trip 2) (mkGraph [1%N; 2%N] []) (Graph_new 2));
    [reflexivity|]. repeat constructor; lia.
Defined.

(** X7, witness: the second triangle of the quad's buffers. *)
Lemma mesh_of_buffers_round_trip_witness :
  ∃ mesh0, mesh_of_buffers 0 quad_buffers = Some mesh0
           ∧ read_ivec3 (get_faces mesh0) (3 * 1) = Some (mk_ivec3 0 2 3).
Proof.
  destruct (mesh_of_buffers_round_trip 0 quad_buffers) as (mesh0 & Hm & _ & _ & _ & Hr).
  exists mesh0. split; [exact Hm|].
  apply (Hr 1%nat (mk_ivec3 0 2 3)); [reflexivity|..];
    unfold INT_MIN, INT_MAX; simpl; lia.
Defined.

(** X8, witness: five views, two faces, the labeling file [1; 5]. *)
Lemma select_views_labeling_override_witness :
  select_views (trivial_library 0 [seam_atlas]) (library_conf EmptyString "labeling.vec")
    quad_mesh [tt; tt; tt; tt; tt] 2 (Graph_new 2)
  = Proceeds ([tt; tt; tt; tt; tt], mkGraph [1%N; 5%N] []).
Proof.
  apply (select_views_labeling_override (trivial_library 0 [seam_atlas])
           (library_conf EmptyString "labeling.vec") quad_mesh [tt; tt; tt; tt; tt] 2
           (Graph_new 2)); [reflexivity|].
  split; [reflexivity|]. repeat constructor; simpl; lia.
Defined.

(** X9, witness: [main] on the quad with a labeling file whose second label
    exceeds the two views. *)
Lemma main_failure_exits_witness :
  main (quad_cli "labeling.vec" true) ["texrecon"%string]
  = Some (EXIT_FAILURE, [WriteString "out/textured.conf" "configuration"])
  ∧ main (quad_cli "labeling.vec" true) [] = Some (EXIT_FAILURE, []).
Proof.
  destruct (main_failure_exits (quad_cli "labeling.vec" true) ["texrecon"%string])
    as (_ & _ & _ & Hlate).
  destruct (main_failure_exits (quad_cli "labeling.vec" true) [])
    as (Hparse & _).
  split.
  - apply (Hlate (quad_command_line "labeling.vec" true) (quad_setup [tt; tt]) eq_refl).
    apply (LabelOutOfRange _ _ _ 1%nat 5%N); [reflexivity | reflexivity | simpl; lia].
  - apply (Hparse "no arguments"%string). reflexivity.
Defined.

(** X11, witness: with a labeling file given, [main] on the quad writes no
    intermediate file although intermediate results are asked for. *)
Lemma main_intermediate_files_witness :
  Forall (λ w : FileWrite unit nat,
            match w with
            | SaveDataCosts _ _ | WriteVector _ _ => False
            | _ => True
            end)
    [WriteString "out/textured.conf" "configuration"].
Proof.
  apply (proj2 (proj2 (main_intermediate_files (quad_cli "labeling.vec" true)
                         ["texrecon"%string]
                         (quad_command_line "labeling.vec" true) (quad_setup [tt; tt])
                         EXIT_FAILURE
                         [WriteString "out/textured.conf" "configuration"]
                         eq_refl eq_refl))).
  reflexivity.
Defined.

(** X13, witness: the quad through [reconstructTexture]. *)
Lemma reconstructTexture_success_exact_witness :
  Returns EmptyString = Returns (A := unit) EmptyString
  ∧ (([seam_atlas] = [] ∧ quad_model = quad_buffers)
     ∨ ∃ a rest, [seam_atlas] = a :: rest
                 ∧ consolidation_defined quad_mesh a
                 ∧ quad_model = consolidated_model 0 quad_mesh a).
Proof.
  pose proof (reconstructTexture_success_exact (trivial_library 0 [seam_atlas]) 0 0
                (library_conf EmptyString EmptyString) 0 0 [] [] [] quad_buffers
                (quad_setup []) [] (Graph_new 2)
                (Returns EmptyString) quad_model eq_refl eq_refl) as H.
  cbv zeta in H. apply (proj1 H). reflexivity.
Defined.

(** ** Narrowing of the texcoord indices *)

Lemma for_range_ext {St : Type} (body1 body2 : nat → St → option St) (count : nat) :
  (∀ k s, body1 k s = body2 k s) →
  ∀ i s, for_range body1 i count s = for_range body2 i count s.
Proof.
  intros Hext. induction count as [|count IH]; intros i s; cbn [for_range]; [done|].
  rewrite Hext. destruct (body2 i s) as [s'|]; cbn [mbind option_bind]; [apply IH|done].
Qed.

Lemma to_int_congruent (a b : N) :
  (a mod 2 ^ 32 = b mod 2 ^ 32)%N → to_int (Z.of_N a) = to_int (Z.of_N b).
Proof.
  intros H. unfold to_int. f_equal.
  rewrite <- (Zplus_mod_idemp_l (Z.of_N a)), <- (Zplus_mod_idemp_l (Z.of_N b)).
  do 2 f_equal.
  change (2 ^ 32) with (Z.of_N (2 ^ 32)).
  rewrite <- !N2Z.inj_mod. by rewrite H.
Qed.

Section Narrowing.

Context {V3 V2 : Type}.
Variables (zero3 : V3) (zero2 : V2).

(** X14.  The texcoord indices of the atlas are narrowed from [std::size_t]
    to [int] when they are stored in the triangles: two atlases that differ
    only by texcoord indices that agree modulo 2^32 give the same result. *)
Theorem build_model_narrows_texcoord_ids (mesh : TriangleMesh V3)
    (image : ByteImage) (faces : list N) (texcoords : list V2) (ids ids' : list N)
    (rest : list (TextureAtlas V2)) (out : Buffers V3 V2) :
  Forall2 (λ id id', (id mod 2 ^ 32 = id' mod 2 ^ 32)%N) ids ids' →
  build_model zero3 zero2 mesh (mkAtlas image faces texcoords ids' :: rest) out
  = build_model zero3 zero2 mesh (mkAtlas image faces texcoords ids :: rest) out.
Proof.
  intros Hids. unfold build_model.
  cbn [get_image atlas_get_faces get_texcoords get_texcoord_ids].
  assert (Hcorner : ∀ i j tris,
            set_triangle_corner ids' i j tris = set_triangle_corner ids i j tris).
  { intros i j tris. unfold set_triangle_corner.
    destruct (int_mul (Z.of_nat i) 3) as [i3|]; cbn [mbind option_bind]; [|done].
    destruct (int_add i3 (Z.of_nat j)) as [k|]; cbn [mbind option_bind]; [|done].
    destruct (ids !! Z.to_nat k) as [id|] eqn:Eid.
    - destruct (Forall2_lookup_l _ _ _ _ _ Hids Eid) as (id' & -> & Hmod).
      cbn [mbind option_bind]. by rewrite (to_int_congruent _ _ Hmod).
    - apply lookup_ge_None in Eid. rewrite (Forall2_length _ _ _ Hids) in Eid.
      apply lookup_ge_None in Eid. by rewrite Eid. }
  assert (Hgather : gather_faces (get_faces mesh) faces ids' (triangles out)
                    = gather_faces (get_faces mesh) faces ids (triangles out)).
  { unfold gather_faces, for_int. case_decide; [|done].
    apply for_range_ext. intros k s. unfold gather_face.
    destruct (faces !! k); cbn [mbind option_bind]; [|done].
    destruct (read_ivec3 _ _); cbn [mbind option_bind]; [|done].
    destruct (vector_set _ _ _); cbn [mbind option_bind]; [|done].
    by rewrite (for_range_ext _ _ 3 (Hcorner k)). }
  by rewrite Hgather.
Qed.

End Narrowing.

(** X14, witness: the quad with texcoord index 2^32 + 3 in place of 3. *)
Lemma build_model_narrows_texcoord_ids_witness :
  build_model 0 0 quad_mesh
    [mkAtlas (get_image seam_atlas) (atlas_get_faces seam_atlas)
       (get_texcoords seam_atlas) [0%N; 1%N; 2%N; 4294967299%N; 4%N; 5%N]]
    quad_buffers
  = build_model 0 0 quad_mesh [seam_atlas] quad_buffers.
Proof.
  apply (build_model_narrows_texcoord_ids 0 0 quad_mesh (get_image seam_atlas)
           (atlas_get_faces seam_atlas) (get_texcoords seam_atlas)
           (get_texcoord_ids seam_atlas)).
  repeat constructor.
Defined.
